(** * GFN: session bootstrap, profile store and route gate

    A shallow embedding of the data-access layer (src/api/firebaseService.js),
    the auth/profile sequencer (src/contexts/UserContext.js), the route guard
    (src/components/common/PrivateRoute.js) and the profile-setup form
    (src/components/profile/UserProfileSetup.js), with the properties of the
    design specification stated and settled against them.

    Strings are byte strings (the UTF-8 form the document database orders
    by); objects used as records of fields are finite maps from field names
    to values; the hosted database is an explicit store that every operation
    reads or threads through. *)

From Stdlib Require Import ZArith Ascii String.
From stdpp Require Import base option list sorting gmap strings.

Local Open Scope string_scope.

(** ** Comparison functions

    The document database sorts query results; its order is described with
    three-way comparisons, combined lexicographically. *)
Module Cmp.

Definition le {A} (c : A → A → comparison) (x y : A) : Prop := c x y ≠ Gt.

Record Ok {A} (c : A → A → comparison) : Prop := MkOk {
  antisym : ∀ x y, c y x = CompOpp (c x y);
  le_trans : ∀ x y z, le c x y → le c y z → le c x z
}.

(** [x] first, ties broken by [c2]. *)
Definition lex {A} (c1 c2 : A → A → comparison) (x y : A) : comparison :=
  match c1 x y with Eq => c2 x y | o => o end.

Definition on {A B} (f : A → B) (c : B → B → comparison) (x y : A) : comparison :=
  c (f x) (f y).

Definition flip {A} (c : A → A → comparison) (x y : A) : comparison :=
  CompOpp (c x y).

Definition opt {A} (c : A → A → comparison) (x y : option A) : comparison :=
  match x, y with
  | None, None => Eq
  | None, Some _ => Lt
  | Some _, None => Gt
  | Some a, Some b => c a b
  end.

End Cmp.

(** ** The string builtins of the host language

    [String.prototype.toLowerCase] and [String.prototype.trim] are builtins
    of the runtime, not code of the repository: the development is
    parametric in them. *)
Class StringBuiltins := {
  toLowerCase : string → string;
  trim : string → string
}.

(** The ASCII fragment of the two builtins, used to run the model on
    concrete inputs. *)
Module AsciiBuiltins.

Definition lower_char (c : ascii) : ascii :=
  let n := N_of_ascii c in
  if ((65 <=? n) && (n <=? 90))%N then ascii_of_N (n + 32) else c.

Fixpoint lower (s : string) : string :=
  match s with
  | EmptyString => EmptyString
  | String c s' => String (lower_char c) (lower s')
  end.

(** TAB, LF, VT, FF, CR and SPACE. *)
Definition is_white (c : ascii) : bool :=
  let n := N_of_ascii c in
  (((9 <=? n) && (n <=? 13)) || (n =? 32))%N.

Fixpoint trim_start (s : string) : string :=
  match s with
  | EmptyString => EmptyString
  | String c s' => if is_white c then trim_start s' else s
  end.

Definition trim_both (s : string) : string :=
  String.rev (trim_start (String.rev (trim_start s))).

Definition builtins : StringBuiltins :=
  {| toLowerCase := lower; trim := trim_both |}.

End AsciiBuiltins.

(** Truthiness of a string: only the empty string is falsy. *)
Definition truthy (s : string) : bool :=
  match s with EmptyString => false | String _ _ => true end.

(** ** The document database (the collaborator behind 'firebase/firestore')

    Only the contract the service layer uses: point reads, merge-writes,
    and queries with field filters, ordering and limit. *)
Module Firestore.

(** Field values. Profiles and messages hold strings and timestamps;
    the other scalar kinds are kept so that the cross-type order of the
    database is visible. *)
Inductive value :=
| VNull
| VBool (b : bool)
| VNum (n : Z)
| VTime (t : Z)
| VStr (s : string).

(** A document's data: field name to value. *)
Abbreviation doc := (gmap string value).
(** A collection: document id to data. *)
Abbreviation coll := (gmap string doc).
(** The database: collection path (its segments) to collection. *)
Abbreviation db := (gmap (list string) coll).

Definition rank (v : value) : nat :=
  match v with
  | VNull => 0 | VBool _ => 1 | VNum _ => 2 | VTime _ => 3 | VStr _ => 4
  end.

(** Values of different kinds are ordered by kind, values of one kind
    by their natural order. *)
Definition value_compare (x y : value) : comparison :=
  match x, y with
  | VNull, VNull => Eq
  | VBool a, VBool b => Bool.compare a b
  | VNum a, VNum b => Z.compare a b
  | VTime a, VTime b => Z.compare a b
  | VStr a, VStr b => String.compare a b
  | _, _ => Nat.compare (rank x) (rank y)
  end.

Definition same_kind (x y : value) : bool := Nat.eqb (rank x) (rank y).

Inductive whereOp := OpLt | OpLe | OpEq | OpGe | OpGt.

Definition op_holds (o : whereOp) (c : comparison) : bool :=
  match o, c with
  | OpLt, Lt | OpLe, Lt | OpLe, Eq | OpEq, Eq
  | OpGe, Eq | OpGe, Gt | OpGt, Gt => true
  | _, _ => false
  end.

Definition is_inequality (o : whereOp) : bool :=
  match o with OpEq => false | _ => true end.

Inductive direction := Asc | Desc.

Inductive constraint :=
| where_ (field : string) (o : whereOp) (v : value)
| orderBy (field : string) (dir : direction)
| limit (n : nat).

Record Query := query {
  q_collection : list string;
  q_constraints : list constraint
}.

(** [collection(db, seg1, seg2, ...)] *)
Definition collection (segments : list string) : list string := segments.

Definition contents (d : db) (path : list string) : coll :=
  default ∅ (d !! path).

(** A filter matches a document that has the field, with a value of
    the kind of the bound, in the stated relation to it. *)
Definition matches (data : doc) (c : constraint) : bool :=
  match c with
  | where_ f o v =>
      match data !! f with
      | Some x => same_kind x v && op_holds o (value_compare x v)
      | None => false
      end
  | orderBy f _ => bool_decide (is_Some (data !! f))
  | limit _ => true
  end.

Definition explicit_order (cs : list constraint) : list (string * direction) :=
  omap (λ c, match c with orderBy f d => Some (f, d) | _ => None end) cs.

Definition implicit_order (cs : list constraint) : list (string * direction) :=
  omap (λ c, match c with
             | where_ f o _ => if is_inequality o then Some (f, Asc) else None
             | _ => None
             end) cs.

(** The sort keys of a query: its [orderBy] clauses, or, when it has
    none, the fields of its inequality filters, ascending. *)
Definition order_of (cs : list constraint) : list (string * direction) :=
  match explicit_order cs with
  | [] => implicit_order cs
  | o => o
  end.

Definition directed {A} (d : direction) (c : A → A → comparison) :=
  match d with Asc => c | Desc => Cmp.flip c end.

Definition last_direction (o : list (string * direction)) : direction :=
  match last o with Some (_, d) => d | None => Asc end.

Definition by_field (f : string) : string * doc → string * doc → comparison :=
  Cmp.on (λ x, snd x !! f) (Cmp.opt value_compare).

Definition by_id : string * doc → string * doc → comparison :=
  Cmp.on fst String.compare.

(** Results are ordered by the sort keys in turn and last by document
    id, in the direction of the last sort key. *)
Fixpoint by_fields (o : list (string * direction)) (final : direction)
  : string * doc → string * doc → comparison :=
  match o with
  | [] => directed final by_id
  | (f, d) :: o' => Cmp.lex (directed d (by_field f)) (by_fields o' final)
  end.

Definition doc_order (cs : list constraint) : string * doc → string * doc → comparison :=
  by_fields (order_of cs) (last_direction (order_of cs)).

Definition doc_le (cs : list constraint) (x y : string * doc) : Prop :=
  Cmp.le (doc_order cs) x y.

Global Instance doc_le_dec cs x y : Decision (doc_le cs x y).
Proof. unfold doc_le, Cmp.le. apply _. Defined.

Definition limit_of (cs : list constraint) : option nat :=
  last (omap (λ c, match c with limit n => Some n | _ => None end) cs).

Definition apply_limit {A} (n : option nat) (l : list A) : list A :=
  match n with Some k => take k l | None => l end.

Definition selected (cs : list constraint) (x : string * doc) : bool :=
  forallb (matches (snd x)) cs.

(** The documents a query selects, before ordering and limit. *)
Definition candidates (d : db) (q : Query) : list (string * doc) :=
  filter (λ x, selected (q_constraints q) x = true)
    (map_to_list (contents d (q_collection q))).

(** [getDocs(q)]: the snapshot's documents, in result order. *)
Definition getDocs (d : db) (q : Query) : list (string * doc) :=
  let cs := q_constraints q in
  apply_limit (limit_of cs) (merge_sort (doc_le cs) (candidates d q)).

(** The ids [doc(db, path, id)] takes for one document of the collection
    at [path]: not empty and with no "/" in them, as the uids of the auth
    provider are.  Any other string is a longer path to [doc], which
    refuses it or resolves it to a document elsewhere; the store below
    is read and written under document ids. *)
Fixpoint no_slash (s : string) : bool :=
  match s with
  | EmptyString => true
  | String c s' => negb (Ascii.eqb c "/") && no_slash s'
  end.

Definition is_document_id (id : string) : bool := truthy id && no_slash id.

(** [getDoc(doc(db, path, id))]: the snapshot, [None] when it does not
    exist. *)
Definition getDoc (d : db) (path : list string) (id : string) : option doc :=
  contents d path !! id.

(** [setDoc(doc(db, path, id), data, { merge: true })]: supplied fields
    replace the fields of the same name, the others stay; a missing
    document is created. *)
Definition setDoc_merge (d : db) (path : list string) (id : string) (data : doc) : db :=
  <[path := <[id := data ∪ default ∅ (contents d path !! id)]> (contents d path)]> d.

End Firestore.

(** ** Results of asynchronous calls *)

(** What a rejected promise carries.  [InvalidArgument] is an error
    thrown by an argument check of the service layer, [CollaboratorFailure]
    one reported by the hosted backend. *)
Inductive error :=
| InvalidArgument (message : string)
| CollaboratorFailure (message : string).

Inductive outcome (A : Type) :=
| Fulfilled (a : A)
| Rejected (e : error).
Arguments Fulfilled {A} a.
Arguments Rejected {A} e.

(** ** src/api/firebaseService.js *)
Module FirebaseService.
Import Firestore.

Definition userProfiles : list string := collection ["userProfiles"].

(** [{ id: snap.id, ...snap.data() }]: a data field named "id" wins over
    the document id. *)
Definition with_id (id : string) (data : doc) : doc :=
  data ∪ {["id" := VStr id]}.

(** [fetchUserProfile(uid)], given how the [getDoc] it awaits settles.
    With a falsy [uid] no read is issued. *)
Definition fetchUserProfile (uid : string) (profileSnap : outcome (option doc))
  : outcome (option doc) :=
  if negb (truthy uid) then Fulfilled None
  else match profileSnap with
       | Rejected e => Rejected e
       | Fulfilled (Some data) => Fulfilled (Some (with_id uid data))
       | Fulfilled None => Fulfilled None
       end.

(** [setUserProfile(uid, profileData)]; [None] is an [undefined] or [null]
    argument.  The result is the store after the write.  Past the guard
    the write is that of the store for a [uid] that is a document id
    ([is_document_id]); what [doc] and [setDoc] do with any other
    non-empty string is not part of the store model. *)
Definition setUserProfile (d : db) (uid : string) (profileData : option doc)
  : outcome db :=
  match truthy uid, profileData with
  | true, Some data => Fulfilled (setDoc_merge d userProfiles uid data)
  | _, _ =>
      Rejected (InvalidArgument "UID and profile data are required to set a user profile.")
  end.

(** The character U+F8FF, as the three bytes EF A3 BF. *)
Definition high_sentinel : string :=
  String "239" (String "163" (String "191" EmptyString)).

Section search.
Context `{StringBuiltins}.

Definition search_query (queryText : string) : Query :=
  let lowercasedQuery := toLowerCase queryText in
  query (collection ["userProfiles"])
    [ where_ "lowercaseDisplayName" OpGe (VStr lowercasedQuery);
      where_ "lowercaseDisplayName" OpLe (VStr (lowercasedQuery ++ high_sentinel));
      limit 5 ].

Definition searchUserProfiles (d : db) (queryText : string) : list doc :=
  if negb (truthy queryText) || String.eqb (trim queryText) EmptyString then []
  else (λ x, with_id (fst x) (snd x)) <$> getDocs d (search_query queryText).

End search.

Definition messages_query (chatId : string) (lastReadTimestamp : option Z) : Query :=
  let messagesCollectionRef := collection ["chats"; chatId; "messages"] in
  match lastReadTimestamp with
  | Some t =>
      query messagesCollectionRef
        [ orderBy "createdAt" Asc; where_ "createdAt" OpGt (VTime t) ]
  | None => query messagesCollectionRef []
  end.

(** [fetchChatMessagesCount(chatId, lastReadTimestamp = null)]: the size
    of the snapshot. *)
Definition fetchChatMessagesCount (d : db) (chatId : string)
    (lastReadTimestamp : option Z) : nat :=
  length (getDocs d (messages_query chatId lastReadTimestamp)).

End FirebaseService.

(** ** The profile store, in the words of the specification *)
Module ProfileStore.
Import Firestore.

(** The search key of a profile, when it has one. *)
Definition name_key (p : doc) : option string :=
  match p !! "lowercaseDisplayName" with
  | Some (VStr k) => Some k
  | _ => None
  end.

(** The key lies in the closed range [lo, hi]. *)
Definition name_in_range (lo hi : string) (p : doc) : bool :=
  match name_key p with
  | Some k => String.leb lo k && String.leb k hi
  | None => false
  end.

(** The key lies in the range [lo, hi), open above. *)
Definition name_in_half_open (lo hi : string) (p : doc) : bool :=
  match name_key p with
  | Some k => String.leb lo k && String.ltb k hi
  | None => false
  end.

(** Both profiles have a key and the first one's is not the greater. *)
Definition name_le (p1 p2 : doc) : Prop :=
  ∃ k1 k2, name_key p1 = Some k1 ∧ name_key p2 = Some k2 ∧ (k1 ≤ k2)%string.

(** A message created strictly after [t]. *)
Definition created_after (t : Z) (m : doc) : bool :=
  match m !! "createdAt" with
  | Some (VTime c) => (t <? c)%Z
  | _ => false
  end.

(** The search invariant of a profile: a search key is the lower-cased
    display name. *)
Definition search_key_ok `{StringBuiltins} (p : doc) : Prop :=
  ∀ k, p !! "lowercaseDisplayName" = Some (VStr k) →
       ∃ n, p !! "displayName" = Some (VStr n) ∧ k = toLowerCase n.

(** A continuation of a search text that the sentinel bounds: nothing,
    or bytes of which the first is below EF, the first byte of the
    sentinel (every character up to U+EFFF starts with such a byte). *)
Definition low_continuation (rest : string) : bool :=
  match rest with
  | EmptyString => true
  | String c _ => (N_of_ascii c <? 239)%N
  end.

End ProfileStore.

(** ** src/contexts/UserContext.js *)
Module UserContext.
Import Firestore FirebaseService.

(** The record the auth provider hands to the listener. *)
Record AuthUser := {
  uid : string;
  email : string
}.

(** The [user] state: [{ ...authUser, displayName, profileComplete }].
    [displayName] is [None] when the profile has no such field. *)
Record User := {
  authUser : AuthUser;
  displayName : option value;
  profileComplete : bool
}.

(** What [UserContext.Provider] publishes. *)
Record Context := {
  user : option User;
  loadingUser : bool
}.

(** The provider together with what its listener has in flight: every
    invocation of the listener for a signed-in user suspends at
    [await fetchUserProfile(authUser.uid)] and is resumed when that call
    settles.  [pathname] is [window.location.pathname]; [unhandled]
    collects the errors with which invocations of the listener ended. *)
Record State := {
  context : Context;
  pathname : string;
  suspended : gmap nat AuthUser;
  issued : nat;
  unhandled : list error
}.

Inductive event :=
| AuthStateChanged (a : option AuthUser)
| LookupSettled (ticket : nat) (profileSnap : outcome (option doc)).

(** [useState(null)], [useState(true)]. *)
Definition initial (path : string) : State :=
  {| context := {| user := None; loadingUser := true |};
     pathname := path;
     suspended := ∅;
     issued := 0;
     unhandled := [] |}.

Definition setUser (u : option User) (s : State) : State :=
  {| context := {| user := u; loadingUser := loadingUser (context s) |};
     pathname := pathname s;
     suspended := suspended s;
     issued := issued s;
     unhandled := unhandled s |}.

Definition setLoadingUser (b : bool) (s : State) : State :=
  {| context := {| user := user (context s); loadingUser := b |};
     pathname := pathname s;
     suspended := suspended s;
     issued := issued s;
     unhandled := unhandled s |}.

Definition navigate (to : string) (s : State) : State :=
  {| context := context s;
     pathname := to;
     suspended := suspended s;
     issued := issued s;
     unhandled := unhandled s |}.

Definition suspend (a : AuthUser) (s : State) : State :=
  {| context := context s;
     pathname := pathname s;
     suspended := <[issued s := a]> (suspended s);
     issued := S (issued s);
     unhandled := unhandled s |}.

Definition wake (ticket : nat) (s : State) : State :=
  {| context := context s;
     pathname := pathname s;
     suspended := delete ticket (suspended s);
     issued := issued s;
     unhandled := unhandled s |}.

Definition throw (e : error) (s : State) : State :=
  {| context := context s;
     pathname := pathname s;
     suspended := suspended s;
     issued := issued s;
     unhandled := e :: unhandled s |}.

(** The listener from the [await] on, for [authUser = a]. *)
Definition resume (a : AuthUser) (fetched : outcome (option doc)) (s : State) : State :=
  match fetched with
  | Rejected e => throw e s
  | Fulfilled (Some profile) =>
      setLoadingUser false
        (setUser (Some {| authUser := a;
                          displayName := profile !! "displayName";
                          profileComplete := true |}) s)
  | Fulfilled None =>
      let s1 := setUser (Some {| authUser := a;
                                 displayName := Some (VStr (email a));
                                 profileComplete := false |}) s in
      let s2 := if negb (String.eqb (pathname s1) "/setup-profile")
                then navigate "/setup-profile" s1 else s1 in
      setLoadingUser false s2
  end.

(** One step of the provider: the auth provider invokes the listener, or
    a profile read that an earlier invocation awaits settles. *)
Definition step (s : State) (e : event) : State :=
  match e with
  | AuthStateChanged (Some a) => suspend a s
  | AuthStateChanged None => setLoadingUser false (setUser None s)
  | LookupSettled ticket profileSnap =>
      match suspended s !! ticket with
      | Some a => resume a (fetchUserProfile (uid a) profileSnap) (wake ticket s)
      | None => s
      end
  end.

Definition run (s : State) (es : list event) : State := fold_left step es s.

(** The states of the sequencer as the specification names them. *)
Inductive SessionState :=
| Unknown
| Anonymous
| AuthenticatedPending
| AuthenticatedComplete
| AuthenticatedIncomplete.

(** The settled states, told apart by the published [user]. *)
Definition settled_state (c : Context) : SessionState :=
  match user c with
  | None => Anonymous
  | Some u => if profileComplete u then AuthenticatedComplete
              else AuthenticatedIncomplete
  end.

(** The specification's state, read off the provider: a profile read in
    flight is [AuthenticatedPending] (identity known, answer awaited);
    with none in flight the state is [Unknown] until the first
    notification has been dealt with, and the settled state after. *)
Definition session_state (s : State) : SessionState :=
  if bool_decide (suspended s = ∅) then
    if loadingUser (context s) then Unknown else settled_state (context s)
  else AuthenticatedPending.

(** The [user] the listener publishes for [a] once the profile read has
    answered with [snap]. *)
Definition session_of (a : AuthUser) (snap : option doc) : User :=
  match fetchUserProfile (uid a) (Fulfilled snap) with
  | Fulfilled (Some profile) =>
      {| authUser := a;
         displayName := profile !! "displayName";
         profileComplete := true |}
  | _ =>
      {| authUser := a;
         displayName := Some (VStr (email a));
         profileComplete := false |}
  end.

(** An event that is the answer to a profile read. *)
Definition is_answer (e : event) : Prop :=
  match e with LookupSettled _ _ => True | AuthStateChanged _ => False end.

(** The events of a provider that deals with one notification at a
    time: each sign-in of [l] is followed at once by the answer to its
    profile read; [t] is the ticket of the first read. *)
Fixpoint serial (t : nat) (l : list (AuthUser * option doc)) : list event :=
  match l with
  | [] => []
  | (a, snap) :: l' =>
      AuthStateChanged (Some a) :: LookupSettled t (Fulfilled snap)
        :: serial (S t) l'
  end.

(** An event that publishes nothing: a sign-in with a non-empty identity
    (its read is only started), or a profile read that fails. *)
Definition no_progress (e : event) : Prop :=
  match e with
  | AuthStateChanged (Some a) => truthy (uid a) = true
  | AuthStateChanged None => False
  | LookupSettled _ (Rejected _) => True
  | LookupSettled _ (Fulfilled _) => False
  end.

End UserContext.

(** ** src/components/common/PrivateRoute.js *)
Module PrivateRoute.
Import UserContext.

Inductive element :=
| LoadingSpinner (message : string)
| null
| children.

(** What one render does: the element returned and the [navigate] call
    made on the way, if any. *)
Record Rendering := {
  returned : element;
  navigated : option string
}.

Definition PrivateRoute (c : Context) (pathname : string) : Rendering :=
  if loadingUser c then
    {| returned := LoadingSpinner "Checking authentication..."; navigated := None |}
  else
    match user c with
    | None => {| returned := null; navigated := Some "/auth" |}
    | Some u =>
        if negb (profileComplete u) && negb (String.eqb pathname "/setup-profile")
        then {| returned := null; navigated := Some "/setup-profile" |}
        else {| returned := children; navigated := None |}
    end.

(** The decisions of the specification's RouteGate and what each one
    is in the component. *)
Inductive Decision := Wait | RedirectToAuth | RedirectToSetup | Allow.

Definition enact (d : Decision) : Rendering :=
  match d with
  | Wait => {| returned := LoadingSpinner "Checking authentication..."; navigated := None |}
  | RedirectToAuth => {| returned := null; navigated := Some "/auth" |}
  | RedirectToSetup => {| returned := null; navigated := Some "/setup-profile" |}
  | Allow => {| returned := children; navigated := None |}
  end.

(** RouteGate, in the words of the specification. *)
Definition RouteGate (st : SessionState) (currentPathIsSetupPage : bool) : Decision :=
  match st with
  | Unknown | AuthenticatedPending => Wait
  | Anonymous => RedirectToAuth
  | AuthenticatedIncomplete =>
      if currentPathIsSetupPage then Allow else RedirectToSetup
  | AuthenticatedComplete => Allow
  end.

End PrivateRoute.

(** ** src/components/profile/UserProfileSetup.js *)
Module UserProfileSetup.
Import Firestore FirebaseService UserContext.

(** The outcome of one submission: the store, the published user, the
    component's [error] state and the route navigated to. *)
Record Submitted := {
  store : db;
  user_after : option User;
  error_shown : option string;
  navigated : option string
}.

Section form.
Context `{StringBuiltins}.

(** The fields [handleSubmit] writes. *)
Definition profile_fields (u : User) (displayName : string) (now : Z) : doc :=
  {[ "displayName" := VStr (trim displayName);
     "lowercaseDisplayName" := VStr (toLowerCase (trim displayName));
     "email" := VStr (email (authUser u));
     "createdAt" := VTime now ]}.

(** [handleSubmit], for the form's [displayName] and [new Date() = now]. *)
Definition handleSubmit (d : db) (user : option User) (displayName : string)
    (now : Z) : Submitted :=
  match user with
  | Some u =>
      if truthy (trim displayName) then
        match setUserProfile d (uid (authUser u))
                (Some (profile_fields u displayName now)) with
        | Fulfilled d' =>
            {| store := d';
               user_after := Some {| authUser := authUser u;
                                     UserContext.displayName :=
                                       Some (VStr (trim displayName));
                                     profileComplete := true |};
               error_shown := None;
               navigated := Some "/dashboard" |}
        | Rejected _ =>
            {| store := d;
               user_after := user;
               error_shown := Some "Failed to save profile. Please try again.";
               navigated := None |}
        end
      else
        {| store := d; user_after := user;
           error_shown := Some "Please provide a valid display name.";
           navigated := None |}
  | None =>
      {| store := d; user_after := user;
         error_shown := Some "Please provide a valid display name.";
         navigated := None |}
  end.

End form.

(** What the component renders: the log-in hint, nothing, or the form. *)
Inductive view :=
| PleaseLogIn
| Nothing
| SetupForm.

Record Page := {
  shown : view;
  redirected : option string
}.

(** The component body after its hooks: the two early returns and the
    form. *)
Definition render (user : option User) : Page :=
  match user with
  | None => {| shown := PleaseLogIn; redirected := None |}
  | Some u =>
      if profileComplete u
      then {| shown := Nothing; redirected := Some "/dashboard" |}
      else {| shown := SetupForm; redirected := None |}
  end.

End UserProfileSetup.

(** ** src/components/auth/Auth.js *)
Module Auth.
Import Firestore UserContext.

(** [err.message]. *)
Definition message_of (e : error) : string :=
  match e with
  | InvalidArgument message => message
  | CollaboratorFailure message => message
  end.

(** The outcome of a handler: the published user, the component's
    [loading] and [error] state and the route navigated to. *)
Record Handled := {
  user_after : option User;
  loading : bool;
  error_shown : option string;
  navigated : option string
}.


(** [handleLogin], given how [signInWithEmailAndPassword] settles. *)
Definition handleLogin (user : option User) (userCredential : outcome AuthUser)
  : Handled :=
  match userCredential with
  | Fulfilled _ =>
      {| user_after := user;
         loading := false;
         error_shown := None;
         navigated := Some "/dashboard" |}
  | Rejected err =>
      {| user_after := user;
         loading := false;
         error_shown := Some (message_of err);
         navigated := None |}
  end.

End Auth.

(** ** Concrete stores and users, to run the model on *)
Module Examples.
Import Firestore FirebaseService UserContext.

Definition named (k : string) : doc := {[ "lowercaseDisplayName" := VStr k ]}.

(** The six profiles of the specification's search example. *)
Definition six : db :=
  {[ userProfiles :=
       {[ "u1" := named "flourish"; "u2" := named "flower";
          "u3" := named "flame"; "u4" := named "flagship";
          "u5" := named "flask"; "u6" := named "flux" ]} ]}.

(** One profile whose search key is the search text "a" followed by the
    sentinel itself. *)
Definition edge : db :=
  {[ userProfiles := {[ "u1" := named ("a" ++ high_sentinel) ]} ]}.

Definition alice : AuthUser := {| uid := "A"; email := "alice@example.com" |}.
Definition bob : AuthUser := {| uid := "B"; email := "bob@example.com" |}.

(** Bob has set up a profile, Alice has not. *)
Definition bob_profile : doc :=
  {[ "displayName" := VStr "Bob"; "lowercaseDisplayName" := VStr "bob";
     "email" := VStr "bob@example.com"; "createdAt" := VTime 1700000000 ]}.

Definition one_profile : db := {[ userProfiles := {[ "B" := bob_profile ]} ]}.

(** The specification's merge example: a profile with two fields. *)
Definition xe_profile : doc := {[ "displayName" := VStr "X"; "email" := VStr "e" ]}.
Definition xe_store : db := {[ userProfiles := {[ "id1" := xe_profile ]} ]}.

(** A chat with three messages, created at times 10, 20 and 30. *)
Definition three_messages : db :=
  {[ collection ["chats"; "c1"; "messages"] :=
       {[ "m1" := {[ "createdAt" := VTime 10 ]};
          "m2" := {[ "createdAt" := VTime 20 ]};
          "m3" := {[ "createdAt" := VTime 30 ]} ]} ]}.

(** A name that continues "a" with U+1F600 (bytes F0 9F 98 80). *)
Definition grinning : string :=
  String "240" (String "159" (String "152" (String "128" EmptyString))).

Definition with_emoji : db :=
  {[ userProfiles := {[ "u1" := named ("a" ++ grinning); "u2" := named "ab" ]} ]}.

End Examples.

(** * Properties *)

(** ** Comparisons are total preorders *)
Section cmp_facts.
Context {A : Type}.
Implicit Types c : A → A → comparison.

Lemma cmp_le_total c : Cmp.Ok c → ∀ x y, Cmp.le c x y ∨ Cmp.le c y x.
Proof.
  intros [Ha _] x y. unfold Cmp.le. rewrite (Ha x y).
  destruct (c x y); simpl; auto; left; discriminate.
Qed.

Lemma cmp_lt_le c : Cmp.Ok c → ∀ x y, c x y = Lt → ¬ Cmp.le c y x.
Proof.
  intros [Ha _] x y Hxy Hyx. apply Hyx. rewrite Ha, Hxy. reflexivity.
Qed.

Lemma cmp_not_le c : Cmp.Ok c → ∀ x y, ¬ Cmp.le c y x → c x y = Lt.
Proof.
  intros [Ha _] x y Hyx. unfold Cmp.le in Hyx. rewrite Ha in Hyx.
  destruct (c x y); simpl in Hyx; try reflexivity;
    exfalso; apply Hyx; discriminate.
Qed.

Lemma cmp_eq_le c : Cmp.Ok c → ∀ x y, c x y = Eq ↔ Cmp.le c x y ∧ Cmp.le c y x.
Proof.
  intros [Ha _] x y. unfold Cmp.le. rewrite (Ha x y).
  destruct (c x y); simpl; intuition congruence.
Qed.

Lemma cmp_lex_ok c1 c2 : Cmp.Ok c1 → Cmp.Ok c2 → Cmp.Ok (Cmp.lex c1 c2).
Proof.
  intros H1 H2. split.
  - intros x y. unfold Cmp.lex. rewrite (Cmp.antisym c1 H1 x y).
    destruct (c1 x y); simpl; auto. apply (Cmp.antisym c2 H2).
  - intros x y z Hxy Hyz. unfold Cmp.le, Cmp.lex in *.
    destruct (c1 x y) eqn:E1; [| |congruence];
      destruct (c1 y z) eqn:E2; try congruence.
    + assert (c1 x z = Eq) as ->.
      { apply (cmp_eq_le c1 H1). apply (cmp_eq_le c1 H1) in E1, E2.
        destruct E1, E2. split; eapply (Cmp.le_trans c1 H1); eauto. }
      eapply (Cmp.le_trans c2 H2); eauto.
    + assert (c1 x z = Lt) as ->; [|discriminate].
      apply (cmp_not_le c1 H1). intros Hzx.
      apply (cmp_lt_le c1 H1 _ _ E2).
      eapply (Cmp.le_trans c1 H1); [exact Hzx|].
      unfold Cmp.le. rewrite E1. discriminate.
    + assert (c1 x z = Lt) as ->; [|discriminate].
      apply (cmp_not_le c1 H1). intros Hzx.
      apply (cmp_lt_le c1 H1 _ _ E1).
      eapply (Cmp.le_trans c1 H1); [|exact Hzx].
      unfold Cmp.le. rewrite E2. discriminate.
    + assert (c1 x z = Lt) as ->; [|discriminate].
      apply (cmp_not_le c1 H1). intros Hzx.
      apply (cmp_lt_le c1 H1 _ _ E1).
      eapply (Cmp.le_trans c1 H1); [|exact Hzx].
      unfold Cmp.le. rewrite E2. discriminate.
Qed.

Lemma cmp_flip_ok c : Cmp.Ok c → Cmp.Ok (Cmp.flip c).
Proof.
  intros Hc. split.
  - intros x y. unfold Cmp.flip. f_equal. apply (Cmp.antisym c Hc).
  - intros x y z. unfold Cmp.le, Cmp.flip.
    rewrite <- !(Cmp.antisym c Hc). intros Hyx Hzy.
    eapply (Cmp.le_trans c Hc); eauto.
Qed.

Lemma cmp_on_ok {B} (f : B → A) c : Cmp.Ok c → Cmp.Ok (Cmp.on f c).
Proof.
  intros Hc. split; unfold Cmp.le, Cmp.on.
  - intros x y. apply (Cmp.antisym c Hc).
  - intros x y z. apply (Cmp.le_trans c Hc).
Qed.

Lemma cmp_opt_ok c : Cmp.Ok c → Cmp.Ok (Cmp.opt c).
Proof.
  intros Hc. split.
  - intros [x|] [y|]; simpl; auto. apply (Cmp.antisym c Hc).
  - intros [x|] [y|] [z|]; unfold Cmp.le; simpl; try congruence.
    apply (Cmp.le_trans c Hc).
Qed.

End cmp_facts.

Lemma Z_compare_ok : Cmp.Ok Z.compare.
Proof.
  split.
  - intros x y. apply Z.compare_antisym.
  - intros x y z. unfold Cmp.le. rewrite !Z.compare_le_iff. lia.
Qed.

Lemma nat_compare_ok : Cmp.Ok Nat.compare.
Proof.
  split.
  - intros x y. apply Nat.compare_antisym.
  - intros x y z. unfold Cmp.le. rewrite !Nat.compare_le_iff. lia.
Qed.

Lemma bool_compare_ok : Cmp.Ok Bool.compare.
Proof.
  split.
  - intros [] []; reflexivity.
  - intros [] [] []; unfold Cmp.le; simpl; intros; congruence.
Qed.

Lemma string_le_compare (s1 s2 : string) : (s1 ≤ s2)%string ↔ Cmp.le String.compare s1 s2.
Proof.
  unfold String.le, String.leb, Cmp.le.
  destruct (String.compare s1 s2); simpl; split; intros; try done.
Qed.

Lemma string_compare_ok : Cmp.Ok String.compare.
Proof.
  split.
  - intros x y. apply String.compare_antisym.
  - intros x y z. rewrite <- !string_le_compare. intros. by etrans.
Qed.

(** ** The document database: order and queries *)
Section firestore_facts.
Import Firestore.

Lemma value_compare_ok : Cmp.Ok value_compare.
Proof.
  split.
  - intros [|a|a|a|a] [|b|b|b|b]; simpl; try reflexivity.
    + apply (Cmp.antisym _ bool_compare_ok).
    + apply (Cmp.antisym _ Z_compare_ok).
    + apply (Cmp.antisym _ Z_compare_ok).
    + apply (Cmp.antisym _ string_compare_ok).
  - intros [|a|a|a|a] [|b|b|b|b] [|c|c|c|c]; unfold Cmp.le; simpl;
      try congruence.
    + apply (Cmp.le_trans _ bool_compare_ok).
    + apply (Cmp.le_trans _ Z_compare_ok).
    + apply (Cmp.le_trans _ Z_compare_ok).
    + apply (Cmp.le_trans _ string_compare_ok).
Qed.

Lemma directed_ok {A} (dir : direction) (c : A → A → comparison) :
  Cmp.Ok c → Cmp.Ok (directed dir c).
Proof. destruct dir; simpl; auto using cmp_flip_ok. Qed.

Lemma by_field_ok f : Cmp.Ok (by_field f).
Proof. apply cmp_on_ok, cmp_opt_ok, value_compare_ok. Qed.

Lemma by_id_ok : Cmp.Ok by_id.
Proof. apply cmp_on_ok, string_compare_ok. Qed.

Lemma by_fields_ok o final : Cmp.Ok (by_fields o final).
Proof.
  induction o as [|[f dir] o IH]; simpl.
  - apply directed_ok, by_id_ok.
  - apply cmp_lex_ok; [apply directed_ok, by_field_ok | exact IH].
Qed.

Lemma doc_order_ok cs : Cmp.Ok (doc_order cs).
Proof. apply by_fields_ok. Qed.

#[local] Instance doc_le_total cs : Total (doc_le cs).
Proof. intros x y. apply cmp_le_total, doc_order_ok. Qed.

#[local] Instance doc_le_trans cs : Transitive (doc_le cs).
Proof. intros x y z. apply (Cmp.le_trans _ (doc_order_ok cs)). Qed.

Lemma size_filter_map_to_list {V} (P : string * V → Prop)
    `{!∀ x, Decision (P x)} (m : gmap string V) :
  length (filter P (map_to_list m)) = size (filter P m).
Proof.
  rewrite map_filter_alt, <- length_map_to_list.
  symmetry. apply Permutation_length, map_to_list_to_map.
  eapply NoDup_fmap_fst.
  - intros i x y Hx%list_elem_of_filter Hy%list_elem_of_filter.
    destruct Hx as [_ Hx], Hy as [_ Hy].
    apply elem_of_map_to_list in Hx, Hy. congruence.
  - apply NoDup_filter, NoDup_map_to_list.
Qed.

Lemma getDocs_candidates d q :
  getDocs d q =
  apply_limit (limit_of (q_constraints q))
    (merge_sort (doc_le (q_constraints q)) (candidates d q)).
Proof. reflexivity. Qed.

Lemma elem_of_candidates d q x :
  x ∈ candidates d q ↔
  contents d (q_collection q) !! x.1 = Some x.2 ∧ selected (q_constraints q) x = true.
Proof.
  unfold candidates. rewrite list_elem_of_filter.
  destruct x as [i p]. rewrite elem_of_map_to_list. simpl. tauto.
Qed.

Lemma apply_limit_subseteq {A} n (l : list A) x : x ∈ apply_limit n l → x ∈ l.
Proof.
  destruct n as [k|]; simpl; [|done].
  intros Hx. rewrite <- (take_drop k l). apply elem_of_app. by left.
Qed.

(** Every result is a document of the collection that passes the filters. *)
Lemma getDocs_elem d q x :
  x ∈ getDocs d q →
  contents d (q_collection q) !! x.1 = Some x.2 ∧ selected (q_constraints q) x = true.
Proof.
  rewrite getDocs_candidates. intros Hx%apply_limit_subseteq.
  rewrite merge_sort_Permutation in Hx. by apply elem_of_candidates.
Qed.

(** Results come in the query's order. *)
Lemma getDocs_sorted d q : StronglySorted (doc_le (q_constraints q)) (getDocs d q).
Proof.
  rewrite getDocs_candidates.
  pose proof (StronglySorted_merge_sort (doc_le (q_constraints q)) (candidates d q)) as Hs.
  destruct (limit_of (q_constraints q)) as [k|]; simpl; [|done].
  rewrite <- (take_drop k) in Hs. by apply StronglySorted_app_1_l in Hs.
Qed.

(** The number of results: all that match, cut at the limit. *)
Lemma getDocs_length d q :
  length (getDocs d q) =
  let n := size (filter (λ x, selected (q_constraints q) x = true)
                   (contents d (q_collection q))) in
  match limit_of (q_constraints q) with Some k => k `min` n | None => n end.
Proof.
  rewrite getDocs_candidates. simpl.
  rewrite <- size_filter_map_to_list. fold (candidates d q).
  destruct (limit_of (q_constraints q)) as [k|]; simpl.
  - by rewrite length_take, merge_sort_Permutation.
  - by rewrite merge_sort_Permutation.
Qed.

(** A matching document left out by the limit comes after every result. *)
Lemma getDocs_complete d q x :
  contents d (q_collection q) !! x.1 = Some x.2 →
  selected (q_constraints q) x = true →
  x ∈ getDocs d q ∨ ∀ y, y ∈ getDocs d q → doc_le (q_constraints q) y x.
Proof.
  intros Hin Hsel. rewrite getDocs_candidates.
  assert (x ∈ merge_sort (doc_le (q_constraints q)) (candidates d q)) as Hx.
  { rewrite merge_sort_Permutation. by apply elem_of_candidates. }
  pose proof (StronglySorted_merge_sort (doc_le (q_constraints q)) (candidates d q)) as Hs.
  destruct (limit_of (q_constraints q)) as [k|]; simpl; [|by left].
  rewrite <- (take_drop k) in Hx, Hs.
  apply elem_of_app in Hx as [Hx|Hx]; [by left|right].
  intros y Hy. eapply StronglySorted_app_1_elem_of; eauto.
Qed.

End firestore_facts.

(** ** src/api/firebaseService.js: counting messages *)
Section count_facts.
Import Firestore FirebaseService ProfileStore.

Lemma selected_nil x : selected [] x = true.
Proof. reflexivity. Qed.

Lemma selected_after t x :
  selected [orderBy "createdAt" Asc; where_ "createdAt" OpGt (VTime t)] x
  = created_after t x.2.
Proof.
  unfold selected, created_after. simpl.
  destruct (x.2 !! "createdAt") as [[|b|n|c|s]|] eqn:E; simpl;
    rewrite ?andb_false_r; try reflexivity.
  rewrite andb_true_r, Z.ltb_antisym, Z.leb_compare.
  destruct (c ?= t)%Z; reflexivity.
Qed.

(** C10: the count is the size of the chat's message collection when no
    timestamp is given, and otherwise the number of its messages whose
    [createdAt] is a time strictly after the given one. *)
Theorem fetchChatMessagesCount_counts (d : db) (chatId : string) :
  let messages := contents d (collection ["chats"; chatId; "messages"]) in
  fetchChatMessagesCount d chatId None = size messages
  ∧ ∀ t, fetchChatMessagesCount d chatId (Some t)
         = size (filter (λ x, created_after t x.2 = true) messages).
Proof.
  simpl. split.
  - unfold fetchChatMessagesCount. rewrite getDocs_length. simpl.
    f_equal. apply map_filter_id. intros i x _. reflexivity.
  - intros t. unfold fetchChatMessagesCount. rewrite getDocs_length.
    cbn -[selected]. f_equal. apply map_filter_ext. intros i x _.
    by rewrite (selected_after t (i, x)).
Qed.

End count_facts.

(** ** src/api/firebaseService.js: prefix search *)
Section search_facts.
Import Firestore FirebaseService ProfileStore.
Context `{StringBuiltins}.

Lemma name_key_with_id id p : name_key (with_id id p) = name_key p.
Proof.
  unfold name_key, with_id.
  rewrite lookup_union_l; [done|]. by rewrite lookup_singleton_ne.
Qed.

Lemma op_ge_leb (lo k : string) :
  op_holds OpGe (String.compare k lo) = String.leb lo k.
Proof.
  unfold String.leb. rewrite (String.compare_antisym lo k).
  destruct (String.compare k lo); reflexivity.
Qed.

Lemma op_le_leb (k hi : string) :
  op_holds OpLe (String.compare k hi) = String.leb k hi.
Proof. unfold String.leb. destruct (String.compare k hi); reflexivity. Qed.

(** The two filters of the search query select the closed range. *)
Lemma selected_search queryText x :
  selected (q_constraints (search_query queryText)) x
  = name_in_range (toLowerCase queryText) (toLowerCase queryText ++ high_sentinel) x.2.
Proof.
  unfold selected, name_in_range, name_key.
  cbn -[String.leb high_sentinel op_holds].
  destruct (x.2 !! "lowercaseDisplayName") as [[|b|n|c|k]|];
    cbn -[String.leb high_sentinel op_holds]; try reflexivity.
  by rewrite op_ge_leb, op_le_leb, andb_true_r.
Qed.

Lemma cmp_lex_le_fst {A} (c1 c2 : A → A → comparison) x y :
  Cmp.le (Cmp.lex c1 c2) x y → Cmp.le c1 x y.
Proof. unfold Cmp.le, Cmp.lex. destruct (c1 x y); congruence. Qed.

(** The search query's order is by search key first. *)
Lemma search_order_name queryText x y :
  is_Some (name_key x.2) → is_Some (name_key y.2) →
  doc_le (q_constraints (search_query queryText)) x y → name_le x.2 y.2.
Proof.
  intros [k1 H1] [k2 H2] Hle. exists k1, k2. split_and!; [done..|].
  apply cmp_lex_le_fst in Hle.
  unfold name_key in H1, H2. unfold Cmp.le in Hle. cbn in Hle.
  unfold by_field, Cmp.on in Hle.
  destruct (x.2 !! "lowercaseDisplayName") as [[| | | |k1']|]; try done.
  destruct (y.2 !! "lowercaseDisplayName") as [[| | | |k2']|]; try done.
  simplify_eq. by apply string_le_compare.
Qed.

Lemma name_in_range_key lo hi p :
  name_in_range lo hi p = true → is_Some (name_key p).
Proof. unfold name_in_range. destruct (name_key p); [eauto|done]. Qed.

End search_facts.

Lemma StronglySorted_elems {A} (R : relation A) (P : A → Prop) (l : list A) :
  StronglySorted R l → (∀ x, x ∈ l → P x) →
  StronglySorted (λ x y, R x y ∧ P x ∧ P y) l.
Proof.
  induction 1 as [|x l Hl IH Hx]; intros HP; constructor.
  - apply IH. intros y Hy. apply HP. by right.
  - apply Forall_forall. intros y Hy. rewrite Forall_forall in Hx.
    split_and!; [by apply Hx | apply HP; by left | apply HP; by right].
Qed.

Section search_theorem.
Import Firestore FirebaseService ProfileStore.
Context `{StringBuiltins}.

Lemma name_le_with_id i1 p1 i2 p2 :
  name_le p1 p2 → name_le (with_id i1 p1) (with_id i2 p2).
Proof. unfold name_le. by rewrite !name_key_with_id. Qed.

Lemma searchUserProfiles_query d queryText :
  truthy queryText = true → trim queryText ≠ EmptyString →
  searchUserProfiles d queryText
  = (λ x, with_id x.1 x.2) <$> getDocs d (search_query queryText).
Proof.
  intros Ht Hw. unfold searchUserProfiles. rewrite Ht. simpl.
  by destruct (String.eqb_spec (trim queryText) EmptyString).
Qed.

(** C6, as the code has it: for a search text that is neither empty nor
    blank, the result holds the profiles whose search key lies in the
    closed range from the lower-cased text to that text followed by the
    high sentinel, both ends included; it is ordered by search key,
    ascending, and holds at most 5 of them, the least ones: a matching
    profile that is left out has a key no smaller than every key
    returned. *)
Theorem searchUserProfiles_closed_range (d : db) (queryText : string) :
  truthy queryText = true → trim queryText ≠ EmptyString →
  let lo := toLowerCase queryText in
  let hi := lo ++ high_sentinel in
  let profiles := contents d userProfiles in
  let rs := searchUserProfiles d queryText in
  length rs = 5 `min` size (filter (λ x, name_in_range lo hi x.2 = true) profiles)
  ∧ (∀ r, r ∈ rs →
       ∃ id p, profiles !! id = Some p ∧ r = with_id id p
               ∧ name_in_range lo hi p = true)
  ∧ StronglySorted name_le rs
  ∧ (∀ id p, profiles !! id = Some p → name_in_range lo hi p = true →
       with_id id p ∈ rs ∨ ∀ r, r ∈ rs → name_le r (with_id id p)).
Proof.
  intros Ht Hw lo hi profiles rs. subst rs.
  rewrite (searchUserProfiles_query d queryText Ht Hw).
  assert (∀ x, x ∈ getDocs d (search_query queryText) →
               name_in_range lo hi x.2 = true) as Hrange.
  { intros x [_ Hsel]%getDocs_elem. by rewrite selected_search in Hsel. }
  split_and!.
  - rewrite length_fmap, getDocs_length. cbv zeta.
    change (limit_of (q_constraints (search_query queryText))) with (Some 5).
    change (q_collection (search_query queryText)) with userProfiles.
    cbv match. do 2 f_equal. apply map_filter_ext. intros i x _.
    by rewrite (selected_search queryText (i, x)).
  - intros r [[id p] [-> Hx]]%list_elem_of_fmap.
    exists id, p. split_and!; [|done|by apply (Hrange (id, p))].
    by apply getDocs_elem in Hx as [Hin _].
  - eapply StronglySorted_fmap;
      [|apply (StronglySorted_elems _ _ _
                 (getDocs_sorted d (search_query queryText)) Hrange)].
    intros x y (Hle & Hx & Hy). apply name_le_with_id.
    eapply search_order_name; eauto using name_in_range_key.
  - intros id p Hin Hp.
    destruct (getDocs_complete d (search_query queryText) (id, p)) as [Hx|Hx].
    + exact Hin.
    + by rewrite selected_search.
    + left. apply list_elem_of_fmap. by exists (id, p).
    + right. intros r [y [-> Hy]]%list_elem_of_fmap.
      apply name_le_with_id.
      apply (search_order_name queryText y (id, p));
        eauto using name_in_range_key.
Qed.

End search_theorem.

(** ** Prefix search on concrete stores *)
Section search_examples.
Import Firestore FirebaseService ProfileStore Examples.

#[local] Existing Instance AsciiBuiltins.builtins.

(** The specification's example: of six matching names the five least
    are returned, in order. *)
Example search_fl :
  name_key <$> searchUserProfiles six "Fl"
  = [Some "flagship"; Some "flame"; Some "flask"; Some "flourish"; Some "flower"].
Proof. vm_compute. exact eq_refl. Qed.

Example search_blank :
  searchUserProfiles six EmptyString = [] ∧ searchUserProfiles six "   " = [].
Proof. split; vm_compute; reflexivity. Qed.

(** C6 as stated fails: the upper end of the range is included.  A
    profile whose key is the lower-cased text followed by the sentinel is
    returned although it is outside the range that is open above. *)
Lemma search_half_open_counterexample :
  searchUserProfiles edge "a" = [with_id "u1" (named ("a" ++ high_sentinel))]
  ∧ name_in_half_open (toLowerCase "a") (toLowerCase "a" ++ high_sentinel)
      (named ("a" ++ high_sentinel)) = false.
Proof. split; vm_compute; reflexivity. Qed.

Lemma search_closed_range_witness :
  truthy "Fl" = true ∧ trim "Fl" ≠ EmptyString
  ∧ length (searchUserProfiles six "Fl")
    = 5 `min` size (filter (λ x, name_in_range (toLowerCase "Fl")
                                   (toLowerCase "Fl" ++ high_sentinel) x.2 = true)
                      (contents six userProfiles)).
Proof.
  split; [reflexivity|]. split; [vm_compute; discriminate|].
  apply (searchUserProfiles_closed_range six "Fl"); [reflexivity|].
  vm_compute; discriminate.
Defined.

End search_examples.

(** ** src/contexts/UserContext.js: the sequencer *)
Section sequencer_facts.
Import Firestore FirebaseService UserContext Examples.

Lemma with_id_displayName id p :
  with_id id p !! "displayName" = p !! "displayName".
Proof.
  unfold with_id. rewrite lookup_union_l; [done|]. by rewrite lookup_singleton_ne.
Qed.

(** A fulfilled read publishes [session_of] and ends the loading phase. *)
Lemma resume_fulfilled a snap s :
  context (resume a (fetchUserProfile (uid a) (Fulfilled snap)) s)
  = {| user := Some (session_of a snap); loadingUser := false |}.
Proof.
  unfold session_of, fetchUserProfile.
  destruct (truthy (uid a)); simpl; [destruct snap as [p|]; simpl|].
  - reflexivity.
  - by destruct (String.eqb (pathname s) "/setup-profile").
  - by destruct (String.eqb (pathname s) "/setup-profile").
Qed.

Lemma resume_suspended a fetched s :
  suspended (resume a fetched s) = suspended s.
Proof.
  destruct fetched as [[p|]|e]; simpl; try reflexivity.
  by destruct (String.eqb (pathname s) "/setup-profile").
Qed.

(** The step of a read that is fulfilled, for the invocation it resumes. *)
Lemma step_fulfilled s ticket a snap :
  suspended s !! ticket = Some a →
  context (step s (LookupSettled ticket (Fulfilled snap)))
  = {| user := Some (session_of a snap); loadingUser := false |}
  ∧ suspended (step s (LookupSettled ticket (Fulfilled snap)))
    = delete ticket (suspended s).
Proof.
  intros Hs. simpl. rewrite Hs. split.
  - apply resume_fulfilled.
  - by rewrite resume_suspended.
Qed.

Lemma run_app s es1 es2 : run s (es1 ++ es2) = run (run s es1) es2.
Proof. apply fold_left_app. Qed.

(** C1 as stated fails: Alice's read is answered after Bob's, and the
    session ends up Alice's although Bob's notification came last. *)
Lemma stale_lookup_counterexample :
  let s := run (initial "/dashboard")
             [ AuthStateChanged (Some alice); AuthStateChanged (Some bob);
               LookupSettled 1 (Fulfilled (Some bob_profile));
               LookupSettled 0 (Fulfilled None) ] in
  suspended s = ∅
  ∧ authUser <$> user (context s) = Some alice
  ∧ alice ≠ bob.
Proof. vm_compute. split_and!; [reflexivity..|discriminate]. Qed.

(** C1, as the code has it: of two notifications with identities [a] and
    then [b], the session after both reads have been answered is that of
    the identity whose read was answered last: [a]'s when [a]'s read comes
    after [b]'s, [b]'s when the reads are answered in the order of the
    notifications. *)
Theorem last_answer_wins (s : State) (a b : AuthUser) (ra rb : option doc) :
  let ta := issued s in
  let tb := S (issued s) in
  let notified := [AuthStateChanged (Some a); AuthStateChanged (Some b)] in
  user (context (run s (notified ++ [ LookupSettled tb (Fulfilled rb);
                                      LookupSettled ta (Fulfilled ra) ])))
  = Some (session_of a ra)
  ∧ user (context (run s (notified ++ [ LookupSettled ta (Fulfilled ra);
                                        LookupSettled tb (Fulfilled rb) ])))
    = Some (session_of b rb).
Proof.
  intros ta tb notified.
  assert (suspended (run s notified) !! ta = Some a) as Ha.
  { simpl. rewrite lookup_insert_ne by lia. apply lookup_insert_eq. }
  assert (suspended (run s notified) !! tb = Some b) as Hb.
  { simpl. apply lookup_insert_eq. }
  rewrite !run_app. set (s2 := run s notified) in *. split.
  - change (run s2 [?e1; ?e2]) with (step (step s2 e1) e2).
    destruct (step_fulfilled s2 tb b rb Hb) as [_ Hsusp].
    edestruct (step_fulfilled (step s2 (LookupSettled tb (Fulfilled rb))) ta a ra)
      as [Hctx _].
    { rewrite Hsusp, lookup_delete_ne by (subst ta tb; lia). exact Ha. }
    by rewrite Hctx.
  - change (run s2 [?e1; ?e2]) with (step (step s2 e1) e2).
    destruct (step_fulfilled s2 ta a ra Ha) as [_ Hsusp].
    edestruct (step_fulfilled (step s2 (LookupSettled ta (Fulfilled ra))) tb b rb)
      as [Hctx _].
    { rewrite Hsusp, lookup_delete_ne by (subst ta tb; lia). exact Hb. }
    by rewrite Hctx.
Qed.

End sequencer_facts.

Section sequencer_claims.
Import Firestore FirebaseService UserContext Examples.

Lemma step_signed_out s :
  context (step s (AuthStateChanged None)) = {| user := None; loadingUser := false |}
  ∧ suspended (step s (AuthStateChanged None)) = suspended s.
Proof. split; reflexivity. Qed.

Lemma step_answer_idle s e :
  suspended s = ∅ → is_answer e → step s e = s.
Proof.
  intros Hs He. destruct e as [?|ticket r]; [done|].
  simpl. by rewrite Hs, lookup_empty.
Qed.

Lemma run_answers_idle s es :
  suspended s = ∅ → Forall is_answer es → run s es = s.
Proof.
  intros Hs Hes. induction Hes as [|e es He _ IH]; [done|].
  simpl. rewrite (step_answer_idle s e Hs He). exact IH.
Qed.

(** C2 as stated fails: Alice's read is still pending when the sign-out
    arrives, and its answer brings her session back. *)
Lemma signed_out_counterexample :
  let s := run (initial "/dashboard")
             [ AuthStateChanged (Some alice); AuthStateChanged None;
               LookupSettled 0 (Fulfilled None) ] in
  suspended s = ∅
  ∧ user (context s)
    = Some {| authUser := alice;
              displayName := Some (VStr "alice@example.com");
              profileComplete := false |}.
Proof. vm_compute. split; reflexivity. Qed.

(** C2, as the code has it: right after a sign-out notification, whatever
    came before, there is no session and the loading flag is off; this
    stays so under later answers when no read was pending at the sign-out;
    a read that was pending and is then fulfilled puts the session of its
    own identity in place. *)
Theorem signed_out_until_stale_answer (s : State) (es : list event) :
  let s1 := run s (es ++ [AuthStateChanged None]) in
  context s1 = {| user := None; loadingUser := false |}
  ∧ (suspended s1 = ∅ → ∀ later, Forall is_answer later →
       user (context (run s1 later)) = None)
  ∧ (∀ ticket a snap, suspended s1 !! ticket = Some a →
       user (context (step s1 (LookupSettled ticket (Fulfilled snap))))
       = Some (session_of a snap)).
Proof.
  intros s1. subst s1. rewrite run_app.
  change (run ?x [AuthStateChanged None]) with (step x (AuthStateChanged None)).
  set (s1 := step (run s es) (AuthStateChanged None)). split_and!.
  - apply step_signed_out.
  - intros Hs later Hl. by rewrite (run_answers_idle s1 later Hs Hl).
  - intros ticket a snap Ha.
    destruct (step_fulfilled s1 ticket a snap Ha) as [-> _]. reflexivity.
Qed.

Lemma signed_out_witness :
  let s1 := run (initial "/dashboard")
              ([AuthStateChanged (Some alice)] ++ [AuthStateChanged None]) in
  suspended s1 !! 0 = Some alice
  ∧ user (context (step s1 (LookupSettled 0 (Fulfilled None))))
    = Some (session_of alice None).
Proof.
  split; [reflexivity|].
  apply (signed_out_until_stale_answer (initial "/dashboard")
           [AuthStateChanged (Some alice)]).
  reflexivity.
Defined.

(** C3 as stated fails: the rejected read is not caught; the first
    notification leaves the provider loading, with no user. *)
Lemma rejected_lookup_counterexample :
  let s := run (initial "/dashboard")
             [ AuthStateChanged (Some alice);
               LookupSettled 0 (Rejected (CollaboratorFailure "unavailable")) ] in
  suspended s = ∅
  ∧ context s = {| user := None; loadingUser := true |}
  ∧ session_state s = Unknown.
Proof. vm_compute. split_and!; reflexivity. Qed.

(** C3, as the code has it: when the profile read of a notification with
    a non-empty identity is rejected, the listener does not catch the
    error: its invocation ends with that error, and the published user,
    the loading flag and the location stay as they were. *)
Theorem rejected_lookup_not_caught (s : State) (ticket : nat) (a : AuthUser)
    (e : error) :
  suspended s !! ticket = Some a → truthy (uid a) = true →
  let s' := step s (LookupSettled ticket (Rejected e)) in
  context s' = context s
  ∧ pathname s' = pathname s
  ∧ unhandled s' = e :: unhandled s
  ∧ suspended s' = delete ticket (suspended s).
Proof.
  intros Hs Hu. simpl. rewrite Hs. unfold fetchUserProfile. rewrite Hu.
  simpl. split_and!; reflexivity.
Qed.

Lemma rejected_lookup_witness :
  let s := step (initial "/dashboard") (AuthStateChanged (Some alice)) in
  let s' := step s (LookupSettled 0 (Rejected (CollaboratorFailure "unavailable"))) in
  suspended s !! 0 = Some alice ∧ truthy (uid alice) = true
  ∧ context s' = context s.
Proof.
  split; [reflexivity|]. split; [reflexivity|].
  apply (rejected_lookup_not_caught
           (step (initial "/dashboard") (AuthStateChanged (Some alice))) 0 alice
           (CollaboratorFailure "unavailable")); reflexivity.
Defined.

(** C4: one notification for identity [a], answered from the store: with
    a profile the session is complete and carries the profile's display
    name; without one it is incomplete and carries the e-mail address of
    the auth record.  The store holds no document under the empty id. *)
Theorem single_notification_settles (d : db) (s0 : State) (a : AuthUser) :
  suspended s0 = ∅ → getDoc d userProfiles EmptyString = None →
  let s := run s0 [ AuthStateChanged (Some a);
                    LookupSettled (issued s0)
                      (Fulfilled (getDoc d userProfiles (uid a))) ] in
  loadingUser (context s) = false
  ∧ match getDoc d userProfiles (uid a) with
    | Some P =>
        session_state s = AuthenticatedComplete
        ∧ user (context s)
          = Some {| authUser := a;
                    displayName := P !! "displayName";
                    profileComplete := true |}
    | None =>
        session_state s = AuthenticatedIncomplete
        ∧ user (context s)
          = Some {| authUser := a;
                    displayName := Some (VStr (email a));
                    profileComplete := false |}
    end.
Proof.
  intros Hs0 Hempty s. subst s.
  change (run s0 [?e1; ?e2]) with (step (step s0 e1) e2).
  set (s1 := step s0 (AuthStateChanged (Some a))).
  assert (suspended s1 !! issued s0 = Some a) as H1 by apply lookup_insert_eq.
  destruct (step_fulfilled s1 (issued s0) a (getDoc d userProfiles (uid a)) H1)
    as [Hctx Hsusp].
  assert (suspended (step s1 (LookupSettled (issued s0)
            (Fulfilled (getDoc d userProfiles (uid a))))) = ∅) as Hidle.
  { rewrite Hsusp. simpl. rewrite Hs0. by rewrite delete_insert_eq, delete_empty. }
  unfold session_state. rewrite Hidle, Hctx. simpl.
  rewrite bool_decide_true by done. split; [done|].
  unfold settled_state, session_of, fetchUserProfile. simpl.
  destruct (truthy (uid a)) eqn:Hu; simpl.
  - destruct (getDoc d userProfiles (uid a)) as [P|]; simpl.
    + by rewrite with_id_displayName.
    + done.
  - assert (uid a = EmptyString) as -> by (by destruct (uid a)).
    by rewrite Hempty.
Qed.

Lemma single_notification_witness :
  let s := run (initial "/dashboard")
             [ AuthStateChanged (Some bob);
               LookupSettled 0 (Fulfilled (getDoc one_profile userProfiles "B")) ] in
  suspended (initial "/dashboard") = ∅
  ∧ getDoc one_profile userProfiles EmptyString = None
  ∧ loadingUser (context s) = false.
Proof.
  split; [reflexivity|]. split; [reflexivity|].
  apply (single_notification_settles one_profile (initial "/dashboard") bob);
    reflexivity.
Defined.

End sequencer_claims.

(** ** src/components/common/PrivateRoute.js: the route guard *)
Section route_claims.
Import UserContext PrivateRoute Examples.

(** The guard looks at the published context only. *)
Lemma PrivateRoute_settled (c : Context) (path : string) :
  PrivateRoute c path
  = if loadingUser c then enact Wait
    else enact (RouteGate (settled_state c) (String.eqb path "/setup-profile")).
Proof.
  unfold PrivateRoute, settled_state.
  destruct (loadingUser c); [reflexivity|].
  destruct (user c) as [u|]; [|reflexivity].
  destruct (profileComplete u); simpl; [reflexivity|].
  by destruct (String.eqb path "/setup-profile").
Qed.

(** C5 as stated fails: after a sign-out has been dealt with, a new
    sign-in whose profile read is in flight is [AuthenticatedPending], yet
    the guard redirects to the sign-in page instead of waiting. *)
Lemma pending_not_waiting_counterexample :
  let s := run (initial "/dashboard")
             [ AuthStateChanged None; AuthStateChanged (Some bob) ] in
  session_state s = AuthenticatedPending
  ∧ PrivateRoute (context s) "/dashboard" = enact RedirectToAuth
  ∧ enact RedirectToAuth ≠ enact (RouteGate AuthenticatedPending false).
Proof. vm_compute. split_and!; [reflexivity..|discriminate]. Qed.

(** C5, as the code has it: the guard is a function of the published
    context and of whether the location is the setup page.  While the
    loading flag is on, or when no profile read is in flight, it is the
    truth table of RouteGate on the sequencer's state; when a read is in
    flight and the loading flag is already off, it is that table on the
    session settled before. *)
Theorem PrivateRoute_RouteGate (s : State) (path : string) :
  let onSetup := String.eqb path "/setup-profile" in
  (loadingUser (context s) = true ∨ suspended s = ∅ →
     PrivateRoute (context s) path = enact (RouteGate (session_state s) onSetup))
  ∧ (loadingUser (context s) = false →
     PrivateRoute (context s) path
     = enact (RouteGate (settled_state (context s)) onSetup)).
Proof.
  intros onSetup. rewrite PrivateRoute_settled. unfold session_state. split.
  - intros [Hl|Hs].
    + rewrite Hl. by destruct (bool_decide (suspended s = ∅)).
    + rewrite bool_decide_true by done. by destruct (loadingUser (context s)).
  - by intros ->.
Qed.

Lemma PrivateRoute_RouteGate_witness :
  let s := run (initial "/setup-profile") [AuthStateChanged (Some alice)] in
  (loadingUser (context s) = true ∨ suspended s = ∅)
  ∧ PrivateRoute (context s) "/setup-profile"
    = enact (RouteGate (session_state s) true).
Proof.
  split; [left; reflexivity|].
  apply (PrivateRoute_RouteGate
           (run (initial "/setup-profile") [AuthStateChanged (Some alice)])
           "/setup-profile").
  left; reflexivity.
Defined.

(** The five rows of the specification's table. *)
Example RouteGate_rows :
  RouteGate Unknown false = Wait
  ∧ RouteGate Anonymous false = RedirectToAuth
  ∧ RouteGate AuthenticatedIncomplete false = RedirectToSetup
  ∧ RouteGate AuthenticatedIncomplete true = Allow
  ∧ RouteGate AuthenticatedComplete true = Allow.
Proof. split_and!; reflexivity. Qed.

End route_claims.

(** ** src/api/firebaseService.js: writing a profile *)
Section write_claims.
Import Firestore FirebaseService Examples.

Lemma truthy_nonempty (s : string) : truthy s = true ↔ s ≠ EmptyString.
Proof. destruct s; simpl; split; congruence. Qed.

Lemma contents_insert (d : db) path (c : coll) :
  contents (<[path := c]> d) path = c.
Proof. unfold contents. by rewrite lookup_insert_eq. Qed.

Lemma getDoc_setDoc_merge d path id data :
  getDoc (setDoc_merge d path id data) path id
  = Some (data ∪ default ∅ (getDoc d path id)).
Proof.
  unfold getDoc, setDoc_merge. rewrite contents_insert. apply lookup_insert_eq.
Qed.

Lemma getDoc_setDoc_merge_ne d path id data other :
  other ≠ id →
  getDoc (setDoc_merge d path id data) path other = getDoc d path other.
Proof.
  intros Hne. unfold getDoc, setDoc_merge. rewrite contents_insert.
  by apply lookup_insert_ne.
Qed.

Lemma setDoc_merge_twice d path id data :
  setDoc_merge (setDoc_merge d path id data) path id data
  = setDoc_merge d path id data.
Proof.
  unfold setDoc_merge at 1.
  change (contents (setDoc_merge d path id data) path !! id)
    with (getDoc (setDoc_merge d path id data) path id).
  rewrite getDoc_setDoc_merge. simpl.
  rewrite (assoc_L (∪)), map_union_idemp.
  unfold setDoc_merge, getDoc. rewrite contents_insert.
  by rewrite !insert_insert_eq.
Qed.




(** A string with a "/" in it is no document id. *)
Example slash_is_no_document_id :
  is_document_id "a/b" = false ∧ is_document_id EmptyString = false
  ∧ is_document_id "u1" = true.
Proof. split_and!; reflexivity. Qed.

(** C8: a write with a non-empty identity succeeds; writing the same
    fields again changes nothing; the stored record has every supplied
    field with the supplied value and every other field as before; with no
    record before, it is exactly the supplied fields; the records of other
    identities are untouched. *)
Theorem setUserProfile_merge (d : db) (uid : string) (fields : doc) :
  uid ≠ EmptyString →
  ∃ d1 stored,
    setUserProfile d uid (Some fields) = Fulfilled d1
    ∧ setUserProfile d1 uid (Some fields) = Fulfilled d1
    ∧ getDoc d1 userProfiles uid = Some stored
    ∧ (∀ k v, fields !! k = Some v → stored !! k = Some v)
    ∧ (∀ k, fields !! k = None →
         stored !! k = default ∅ (getDoc d userProfiles uid) !! k)
    ∧ (getDoc d userProfiles uid = None → stored = fields)
    ∧ (∀ other, other ≠ uid →
         getDoc d1 userProfiles other = getDoc d userProfiles other).
Proof.
  intros Hu. apply truthy_nonempty in Hu.
  exists (setDoc_merge d userProfiles uid fields),
         (fields ∪ default ∅ (getDoc d userProfiles uid)).
  unfold setUserProfile. rewrite Hu. split_and!.
  - reflexivity.
  - by rewrite setDoc_merge_twice.
  - apply getDoc_setDoc_merge.
  - intros k v Hk. by apply lookup_union_Some_l.
  - intros k Hk. by apply lookup_union_r.
  - intros ->. simpl. apply (right_id_L ∅ (∪)).
  - intros other Hne. by apply getDoc_setDoc_merge_ne.
Qed.

Lemma setUserProfile_merge_witness :
  "id1" ≠ EmptyString
  ∧ ∃ d1 stored,
      setUserProfile xe_store "id1" (Some {[ "displayName" := VStr "Y" ]})
      = Fulfilled d1
      ∧ setUserProfile d1 "id1" (Some {[ "displayName" := VStr "Y" ]}) = Fulfilled d1
      ∧ getDoc d1 userProfiles "id1" = Some stored
      ∧ (∀ k v, ({[ "displayName" := VStr "Y" ]} : doc) !! k = Some v →
           stored !! k = Some v)
      ∧ (∀ k, ({[ "displayName" := VStr "Y" ]} : doc) !! k = None →
           stored !! k = default ∅ (getDoc xe_store userProfiles "id1") !! k)
      ∧ (getDoc xe_store userProfiles "id1" = None →
           stored = {[ "displayName" := VStr "Y" ]})
      ∧ (∀ other, other ≠ "id1" →
           getDoc d1 userProfiles other = getDoc xe_store userProfiles other).
Proof.
  split; [discriminate|].
  apply (setUserProfile_merge xe_store "id1" {[ "displayName" := VStr "Y" ]}).
  discriminate.
Defined.

(** The specification's example: {displayName: X, email: e} merged with
    {displayName: Y} is {displayName: Y, email: e}. *)
Example merge_preserves_email :
  ∃ d1, setUserProfile xe_store "id1" (Some {[ "displayName" := VStr "Y" ]})
        = Fulfilled d1
        ∧ getDoc d1 userProfiles "id1"
          = Some {[ "displayName" := VStr "Y"; "email" := VStr "e" ]}.
Proof. eexists. split; [reflexivity|]. vm_compute. reflexivity. Qed.

End write_claims.

(** ** src/components/profile/UserProfileSetup.js: the submission *)
Section setup_claims.
Import Firestore FirebaseService ProfileStore UserContext UserProfileSetup.
Context `{StringBuiltins}.

Lemma profile_fields_displayName u displayName now :
  profile_fields u displayName now !! "displayName"
  = Some (VStr (trim displayName)).
Proof. unfold profile_fields. by simplify_map_eq. Qed.

Lemma profile_fields_lowercase u displayName now :
  profile_fields u displayName now !! "lowercaseDisplayName"
  = Some (VStr (toLowerCase (trim displayName))).
Proof. unfold profile_fields. by simplify_map_eq. Qed.

(** What the form writes satisfies the search invariant, whatever record
    it is merged into. *)
Lemma merged_search_key_ok u displayName now (old : doc) :
  search_key_ok (profile_fields u displayName now ∪ old).
Proof.
  intros k Hk. exists (trim displayName).
  rewrite (lookup_union_Some_l _ _ _ _ (profile_fields_lowercase u displayName now)) in Hk.
  rewrite (lookup_union_Some_l _ _ _ _ (profile_fields_displayName u displayName now)).
  by simplify_eq.
Qed.

(** C9: a submission of the setup form keeps the search invariant of the
    profile collection: if every profile's search key is its lower-cased
    display name before, so it is after; and a submission that goes
    through stores the trimmed display name together with its lower-cased
    form. *)
Theorem handleSubmit_keeps_search_key (d : db) (user : option User)
    (displayName : string) (now : Z) :
  (∀ id p, getDoc d userProfiles id = Some p → search_key_ok p) →
  let r := handleSubmit d user displayName now in
  (∀ id p, getDoc (store r) userProfiles id = Some p → search_key_ok p)
  ∧ (navigated r = Some "/dashboard" →
       ∃ u stored,
         user = Some u
         ∧ getDoc (store r) userProfiles (uid (authUser u)) = Some stored
         ∧ stored !! "displayName" = Some (VStr (trim displayName))
         ∧ stored !! "lowercaseDisplayName"
           = Some (VStr (toLowerCase (trim displayName)))).
Proof.
  intros Hinv r. subst r. unfold handleSubmit, setUserProfile.
  destruct user as [u|]; [|by split].
  destruct (truthy (trim displayName)); [|by split].
  destruct (truthy (uid (authUser u))); [|by split].
  simpl. split.
  - intros id p. destruct (decide (id = uid (authUser u))) as [->|Hne].
    + rewrite getDoc_setDoc_merge. intros [= <-]. apply merged_search_key_ok.
    + rewrite getDoc_setDoc_merge_ne by done. apply Hinv.
  - intros _. eexists u, _. split_and!; [done|apply getDoc_setDoc_merge|..].
    + apply lookup_union_Some_l, profile_fields_displayName.
    + apply lookup_union_Some_l, profile_fields_lowercase.
Qed.

End setup_claims.

Section setup_examples.
Import Firestore FirebaseService ProfileStore UserContext UserProfileSetup Examples.

#[local] Existing Instance AsciiBuiltins.builtins.

Lemma one_profile_search_key_ok id p :
  getDoc one_profile userProfiles id = Some p → search_key_ok p.
Proof.
  unfold getDoc.
  change (contents one_profile userProfiles) with ({[ "B" := bob_profile ]} : coll).
  intros [_ <-]%lookup_singleton_Some. intros k Hk. exists "Bob".
  split; [reflexivity|].
  change (bob_profile !! "lowercaseDisplayName") with (Some (VStr "bob")) in Hk.
  by simplify_eq.
Qed.

Example handleSubmit_alice :
  let r := handleSubmit one_profile
             (Some {| authUser := alice;
                      displayName := Some (VStr "alice@example.com");
                      profileComplete := false |})
             "  Alice " 1700000001 in
  getDoc (store r) userProfiles "A"
  = Some {[ "displayName" := VStr "Alice";
            "lowercaseDisplayName" := VStr "alice";
            "email" := VStr "alice@example.com";
            "createdAt" := VTime 1700000001 ]}.
Proof. vm_compute. exact eq_refl. Qed.

Lemma handleSubmit_witness :
  (∀ id p, getDoc one_profile userProfiles id = Some p → search_key_ok p)
  ∧ ∀ id p,
      getDoc (store (handleSubmit one_profile
                       (Some {| authUser := alice;
                                displayName := Some (VStr "alice@example.com");
                                profileComplete := false |})
                       "  Alice " 1700000001)) userProfiles id = Some p →
      search_key_ok p.
Proof.
  split; [exact one_profile_search_key_ok|].
  apply (handleSubmit_keeps_search_key one_profile
           (Some {| authUser := alice;
                    displayName := Some (VStr "alice@example.com");
                    profileComplete := false |})
           "  Alice " 1700000001 one_profile_search_key_ok).
Defined.

End setup_examples.

(** ** Counting on a concrete chat *)
Section count_examples.
Import Firestore FirebaseService Examples.

Example count_three_messages :
  fetchChatMessagesCount three_messages "c1" None = 3
  ∧ fetchChatMessagesCount three_messages "c1" (Some 10%Z) = 2
  ∧ fetchChatMessagesCount three_messages "c1" (Some 30%Z) = 0
  ∧ fetchChatMessagesCount three_messages "c2" None = 0.
Proof. vm_compute. split_and!; reflexivity. Qed.

End count_examples.

(** * Further properties of the code *)

(** ** src/contexts/UserContext.js: runs of the provider *)
Section sequencer_runs.
Import Firestore FirebaseService UserContext PrivateRoute Examples.

Lemma resume_loading a fetched s :
  loadingUser (context s) = false →
  loadingUser (context (resume a fetched s)) = false.
Proof.
  intros Hl. destruct fetched as [[p|]|e]; simpl; try done.
Qed.

Lemma step_loading s e :
  loadingUser (context s) = false → loadingUser (context (step s e)) = false.
Proof.
  intros Hl. destruct e as [[a|]|ticket r]; simpl; try done.
  destruct (suspended s !! ticket); [|done]. by apply resume_loading.
Qed.

(** X1: The loading flag is one-shot: once it is off, no notification and no
    answer turns it on again. *)
Theorem loading_stays_off (s : State) (es : list event) :
  loadingUser (context s) = false →
  loadingUser (context (run s es)) = false.
Proof.
  revert s. induction es as [|e es IH]; intros s Hl; [done|].
  simpl. apply IH. by apply step_loading.
Qed.

Lemma loading_stays_off_witness :
  let s := step (initial "/dashboard") (AuthStateChanged None) in
  loadingUser (context s) = false
  ∧ loadingUser (context (run s [ AuthStateChanged (Some bob);
                                  LookupSettled 0 (Fulfilled None) ])) = false.
Proof.
  split; [reflexivity|].
  apply (loading_stays_off (step (initial "/dashboard") (AuthStateChanged None))).
  reflexivity.
Defined.

Lemma step_no_progress s e :
  (∀ t a, suspended s !! t = Some a → truthy (uid a) = true) →
  no_progress e →
  context (step s e) = context s
  ∧ pathname (step s e) = pathname s
  ∧ (∀ t a, suspended (step s e) !! t = Some a → truthy (uid a) = true).
Proof.
  intros Hinv He. destruct e as [[a|]|ticket [snap|err]]; simpl in *; try done.
  - split_and!; [done..|]. intros t b [[_ <-]|[_ Hb]]%lookup_insert_Some; eauto.
  - destruct (suspended s !! ticket) as [a|] eqn:Ha; [|done].
    unfold fetchUserProfile. rewrite (Hinv _ _ Ha). simpl.
    split_and!; [done..|]. intros t b [_ Hb]%lookup_delete_Some. eauto.
Qed.

(** X2: The provider can stay in its loading state for ever: as long as
    every sign-in's profile read fails or goes unanswered (and nobody
    signs out), no user is published, the loading flag is not cleared and
    the location does not change. *)
Theorem stuck_loading (s : State) (es : list event) :
  (∀ t a, suspended s !! t = Some a → truthy (uid a) = true) →
  Forall no_progress es →
  context (run s es) = context s ∧ pathname (run s es) = pathname s.
Proof.
  intros Hinv Hes. revert s Hinv.
  induction Hes as [|e es He _ IH]; intros s Hinv; [done|].
  simpl. destruct (step_no_progress s e Hinv He) as (Hc & Hp & Hinv').
  destruct (IH _ Hinv') as [-> ->]. by split.
Qed.

Lemma stuck_loading_witness :
  let es := [ AuthStateChanged (Some alice);
              LookupSettled 0 (Rejected (CollaboratorFailure "unavailable"));
              AuthStateChanged (Some bob) ] in
  (∀ t a, suspended (initial "/dashboard") !! t = Some a → truthy (uid a) = true)
  ∧ Forall no_progress es
  ∧ context (run (initial "/dashboard") es)
    = {| user := None; loadingUser := true |}.
Proof.
  split; [intros t a Ht; simpl in Ht; by rewrite lookup_empty in Ht|].
  split; [repeat constructor|].
  apply (stuck_loading (initial "/dashboard")
           [ AuthStateChanged (Some alice);
             LookupSettled 0 (Rejected (CollaboratorFailure "unavailable"));
             AuthStateChanged (Some bob) ]).
  - intros t a Ht. simpl in Ht. by rewrite lookup_empty in Ht.
  - repeat constructor.
Defined.

Lemma session_of_authUser a snap : authUser (session_of a snap) = a.
Proof.
  unfold session_of. by destruct (fetchUserProfile (uid a) (Fulfilled snap)) as [[?|]|?].
Qed.

Lemma resume_user a fetched s u :
  user (context (resume a fetched s)) = Some u →
  authUser u = a ∨ user (context s) = Some u.
Proof.
  destruct fetched as [[p|]|e]; simpl.
  - intros [= <-]. by left.
  - destruct (String.eqb (pathname s) "/setup-profile"); simpl;
      intros [= <-]; by left.
  - by right.
Qed.

(** What was signed in so far: the identities published or awaited all
    come from notifications among [seen]. *)
Lemma step_notified s e (seen : list event) :
  (∀ t a, suspended s !! t = Some a → AuthStateChanged (Some a) ∈ seen) →
  (∀ u, user (context s) = Some u → AuthStateChanged (Some (authUser u)) ∈ seen) →
  (∀ t a, suspended (step s e) !! t = Some a →
          AuthStateChanged (Some a) ∈ (seen ++ [e])%list)
  ∧ (∀ u, user (context (step s e)) = Some u →
          AuthStateChanged (Some (authUser u)) ∈ (seen ++ [e])%list).
Proof.
  intros Hs Hu. destruct e as [[a|]|ticket r]; simpl.
  - split.
    + intros t b [[_ <-]|[_ Hb]]%lookup_insert_Some; set_solver.
    + intros u Hx. apply Hu in Hx. set_solver.
  - split; [|done]. intros t b Hb. apply Hs in Hb. set_solver.
  - destruct (suspended s !! ticket) as [a|] eqn:Ha.
    + split.
      * intros t b. rewrite resume_suspended. simpl.
        intros [_ Hb]%lookup_delete_Some. apply Hs in Hb. set_solver.
      * intros u [->|Hx]%resume_user.
        -- apply Hs in Ha. set_solver.
        -- simpl in Hx. apply Hu in Hx. set_solver.
    + split.
      * intros t b Hb. apply Hs in Hb. set_solver.
      * intros u Hx. apply Hu in Hx. set_solver.
Qed.

Lemma run_notified es s (seen : list event) :
  (∀ t a, suspended s !! t = Some a → AuthStateChanged (Some a) ∈ seen) →
  (∀ u, user (context s) = Some u → AuthStateChanged (Some (authUser u)) ∈ seen) →
  ∀ u, user (context (run s es)) = Some u →
       AuthStateChanged (Some (authUser u)) ∈ (seen ++ es)%list.
Proof.
  revert s seen. induction es as [|e es IH]; intros s seen Hs Hu u Hx.
  - rewrite app_nil_r. by apply Hu.
  - simpl in Hx. destruct (step_notified s e seen Hs Hu) as [Hs' Hu'].
    specialize (IH _ _ Hs' Hu' u Hx). by rewrite <- (assoc_L (++)) in IH.
Qed.

(** X3: The provider never publishes a user the auth provider did not
    report: whatever the notifications and answers, the identity of the
    published user is that of one of the sign-in notifications. *)
Theorem published_user_was_notified (path : string) (es : list event) (u : User) :
  user (context (run (initial path) es)) = Some u →
  AuthStateChanged (Some (authUser u)) ∈ es.
Proof.
  intros Hx. apply (run_notified es (initial path) [] ); [| |exact Hx].
  - intros t a Ht. simpl in Ht. by rewrite lookup_empty in Ht.
  - intros u' Hu'. simpl in Hu'. done.
Qed.

Lemma published_user_witness :
  let es := [ AuthStateChanged (Some alice); AuthStateChanged (Some bob);
              LookupSettled 1 (Fulfilled (Some bob_profile)) ] in
  user (context (run (initial "/dashboard") es))
  = Some (session_of bob (Some bob_profile))
  ∧ AuthStateChanged (Some (authUser (session_of bob (Some bob_profile)))) ∈ es.
Proof.
  split; [reflexivity|].
  apply (published_user_was_notified "/dashboard"
           [ AuthStateChanged (Some alice); AuthStateChanged (Some bob);
             LookupSettled 1 (Fulfilled (Some bob_profile)) ]).
  reflexivity.
Defined.

End sequencer_runs.

Section sequencer_serial.
Import Firestore FirebaseService UserContext PrivateRoute Examples.

Lemma resume_issued a fetched s : issued (resume a fetched s) = issued s.
Proof.
  destruct fetched as [[p|]|e]; simpl; try reflexivity.
  by destruct (String.eqb (pathname s) "/setup-profile").
Qed.

(** One sign-in answered at once: its session is published, and the
    next read gets the next ticket. *)
Lemma step_pair s a snap :
  let s' := step (step s (AuthStateChanged (Some a)))
              (LookupSettled (issued s) (Fulfilled snap)) in
  context s' = {| user := Some (session_of a snap); loadingUser := false |}
  ∧ issued s' = S (issued s).
Proof.
  set (s1 := step s (AuthStateChanged (Some a))).
  assert (suspended s1 !! issued s = Some a) as H1 by apply lookup_insert_eq.
  destruct (step_fulfilled s1 (issued s) a snap H1) as [Hctx _].
  split; [exact Hctx|].
  simpl. rewrite lookup_insert_eq. by rewrite resume_issued.
Qed.

Lemma run_serial l s :
  context (run s (serial (issued s) l))
  = match last l with
    | Some (a, snap) => {| user := Some (session_of a snap); loadingUser := false |}
    | None => context s
    end.
Proof.
  revert s. induction l as [|[a snap] l IH]; intros s; [done|].
  destruct (step_pair s a snap) as [Hctx Hiss].
  change (run s (serial (issued s) ((a, snap) :: l)))
    with (run (step (step s (AuthStateChanged (Some a)))
                 (LookupSettled (issued s) (Fulfilled snap)))
            (serial (S (issued s)) l)).
  rewrite <- Hiss, IH, Hctx.
  destruct l as [|x l]; [done|]. rewrite last_cons_cons.
  destruct (last (x :: l)) as [[b r]|] eqn:E; [done|].
  by apply last_None in E.
Qed.

(** X4: When every profile read is answered before the next notification
    arrives, the session is that of the last sign-in, whatever came
    before and however many sign-ins there were. *)
Theorem serial_last_wins (s : State) (l : list (AuthUser * option doc))
    (a : AuthUser) (snap : option doc) :
  context (run s (serial (issued s) (l ++ [(a, snap)])))
  = {| user := Some (session_of a snap); loadingUser := false |}.
Proof. by rewrite run_serial, last_snoc. Qed.

(** X5: After a profile read is answered, the guard lets the location the
    provider is then at through: with a profile every location, without
    one the setup page the listener has just navigated to. *)
Theorem guard_allows_after_answer (s : State) (ticket : nat) (a : AuthUser)
    (snap : option doc) :
  suspended s !! ticket = Some a →
  let s' := step s (LookupSettled ticket (Fulfilled snap)) in
  PrivateRoute (context s') (pathname s') = enact Allow
  ∧ (profileComplete (session_of a snap) = false →
       pathname s' = "/setup-profile").
Proof.
  intros Ha s'. destruct (step_fulfilled s ticket a snap Ha) as [Hctx _].
  fold s' in Hctx. rewrite PrivateRoute_settled, Hctx.
  assert (pathname s' = pathname s ∧ profileComplete (session_of a snap) = true
          ∨ pathname s' = "/setup-profile"
            ∧ profileComplete (session_of a snap) = false) as Hcases.
  { subst s'. simpl. rewrite Ha. unfold session_of, fetchUserProfile.
    destruct (truthy (uid a)); simpl; [destruct snap as [p|]; simpl|].
    - by left.
    - right. by destruct (String.eqb_spec (pathname s) "/setup-profile").
    - right. by destruct (String.eqb_spec (pathname s) "/setup-profile"). }
  unfold settled_state. simpl.
  destruct Hcases as [[Hp Hc]|[Hp Hc]]; rewrite Hc; simpl.
  - by split.
  - rewrite Hp. by split.
Qed.

Lemma guard_allows_witness :
  let s := step (initial "/dashboard") (AuthStateChanged (Some alice)) in
  let s' := step s (LookupSettled 0 (Fulfilled None)) in
  suspended s !! 0 = Some alice
  ∧ PrivateRoute (context s') (pathname s') = enact Allow.
Proof.
  split; [reflexivity|].
  apply (guard_allows_after_answer
           (step (initial "/dashboard") (AuthStateChanged (Some alice)))
           0 alice None).
  reflexivity.
Defined.

End sequencer_serial.

(** ** src/api/firebaseService.js: what the range query finds *)
Section string_order.

Lemma ascii_compare_refl (a : ascii) : Ascii.compare a a = Eq.
Proof. apply N.compare_refl. Qed.

(** A string between [lo] and [lo] followed by anything starts with [lo]. *)
Lemma leb_prefix (lo k s : string) :
  String.leb lo k = true → String.leb k (lo ++ s) = true →
  String.prefix lo k = true.
Proof.
  revert k. induction lo as [|a lo IH]; intros [|b k]; simpl; try done.
  unfold String.leb in *. simpl.
  rewrite (Ascii.compare_antisym b a).
  destruct (Ascii.compare a b) eqn:E; simpl; try done.
  apply Ascii.compare_eq_iff in E as ->.
  destruct (ascii_dec b b); [|done]. apply IH.
Qed.

Lemma leb_app_r (lo s : string) : String.leb lo (lo ++ s) = true.
Proof.
  unfold String.leb. induction lo as [|a lo IH]; simpl.
  - by destruct s.
  - by rewrite ascii_compare_refl.
Qed.

Lemma compare_app_l (lo s1 s2 : string) :
  String.compare (lo ++ s1) (lo ++ s2) = String.compare s1 s2.
Proof.
  induction lo as [|a lo IH]; simpl; [done|]. by rewrite ascii_compare_refl.
Qed.

End string_order.

Section search_prefix.
Import Firestore FirebaseService ProfileStore Examples.
Context `{StringBuiltins}.

Lemma high_continuation_out (lo rest : string) (c : ascii) :
  (239 < N_of_ascii c)%N →
  String.leb (lo ++ String c rest) (lo ++ high_sentinel) = false.
Proof.
  intros Hc. unfold String.leb. rewrite compare_app_l. simpl.
  unfold Ascii.compare. change (N_of_ascii "239") with 239%N.
  apply N.compare_gt_iff in Hc. by rewrite Hc.
Qed.

Lemma low_continuation_in (lo rest : string) :
  low_continuation rest = true →
  String.leb (lo ++ rest) (lo ++ high_sentinel) = true.
Proof.
  intros Hc. unfold String.leb. rewrite compare_app_l.
  destruct rest as [|c rest]; [done|]. simpl in *.
  unfold Ascii.compare. change (N_of_ascii "239") with 239%N.
  apply N.ltb_lt, N.compare_lt_iff in Hc. by rewrite Hc.
Qed.

Lemma searchUserProfiles_elem d queryText r :
  r ∈ searchUserProfiles d queryText →
  ∃ id p, contents d userProfiles !! id = Some p ∧ r = with_id id p
          ∧ name_in_range (toLowerCase queryText)
              (toLowerCase queryText ++ high_sentinel) p = true.
Proof.
  unfold searchUserProfiles.
  destruct (negb (truthy queryText) || String.eqb (trim queryText) EmptyString);
    [by intros ?%elem_of_nil|].
  intros [[id p] [-> Hx]]%list_elem_of_fmap.
  apply getDocs_elem in Hx as [Hin Hsel]. rewrite selected_search in Hsel.
  by exists id, p.
Qed.

(** X7: Every profile the search returns has a search key that starts with
    the lower-cased search text. *)
Theorem search_results_have_prefix (d : db) (queryText : string) :
  Forall (λ r, ∃ k, name_key r = Some k
                    ∧ String.prefix (toLowerCase queryText) k = true)
    (searchUserProfiles d queryText).
Proof.
  apply Forall_forall. intros r (id & p & _ & -> & Hr)%searchUserProfiles_elem.
  rewrite name_key_with_id. unfold name_in_range in Hr.
  destruct (name_key p) as [k|]; [|done].
  apply andb_true_iff in Hr as [Hlo Hhi]. exists k. split; [done|].
  by eapply leb_prefix.
Qed.

(** X8: The sentinel does not bound every continuation: a profile whose
    search key continues the lower-cased search text with a byte above
    EF (the first byte of every character beyond the Basic Multilingual
    Plane, emoji among them) is never returned. *)
Theorem search_misses_high_continuation (d : db) (queryText rest : string)
    (c : ascii) :
  (239 < N_of_ascii c)%N →
  Forall (λ r, name_key r ≠ Some (toLowerCase queryText ++ String c rest))
    (searchUserProfiles d queryText).
Proof.
  intros Hc. apply Forall_forall.
  intros r (id & p & _ & -> & Hr)%searchUserProfiles_elem.
  rewrite name_key_with_id. intros Hk. unfold name_in_range in Hr.
  rewrite Hk in Hr. apply andb_true_iff in Hr as [_ Hhi].
  by rewrite high_continuation_out in Hhi.
Qed.

End search_prefix.

Section search_prefix_examples.
Import Firestore FirebaseService ProfileStore Examples.

#[local] Existing Instance AsciiBuiltins.builtins.

Lemma search_misses_witness :
  (239 < N_of_ascii "240")%N
  ∧ Forall (λ r, name_key r ≠ Some (toLowerCase "a" ++ grinning))
      (searchUserProfiles with_emoji "a").
Proof.
  split; [reflexivity|].
  apply (search_misses_high_continuation with_emoji "a"
           (String "159" (String "152" (String "128" EmptyString))) "240").
  reflexivity.
Defined.

(** On the store with the two names "a" + U+1F600 and "ab", a search for
    "a" returns "ab" only. *)
Example search_emoji :
  name_key <$> searchUserProfiles with_emoji "a" = [Some "ab"].
Proof. vm_compute. exact eq_refl. Qed.

End search_prefix_examples.

Section search_complete.
Import Firestore FirebaseService ProfileStore Examples.
Context `{StringBuiltins}.

#[local] Existing Instance doc_le_total.
#[local] Existing Instance doc_le_trans.

(** A matching document that is not among the results was cut off by the
    limit: the results are as many as the limit allows and all come
    before it. *)
Lemma getDocs_cut d q x :
  contents d (q_collection q) !! x.1 = Some x.2 →
  selected (q_constraints q) x = true →
  x ∈ getDocs d q
  ∨ (limit_of (q_constraints q) = Some (length (getDocs d q))
     ∧ ∀ y, y ∈ getDocs d q → doc_le (q_constraints q) y x).
Proof.
  intros Hin Hsel. rewrite getDocs_candidates.
  assert (x ∈ merge_sort (doc_le (q_constraints q)) (candidates d q)) as Hx.
  { rewrite merge_sort_Permutation. by apply elem_of_candidates. }
  pose proof (StronglySorted_merge_sort (doc_le (q_constraints q))
                (candidates d q)) as Hs.
  destruct (limit_of (q_constraints q)) as [k|]; simpl; [|by left].
  set (S := merge_sort (doc_le (q_constraints q)) (candidates d q)) in *.
  rewrite <- (take_drop k S) in Hx, Hs.
  apply elem_of_app in Hx as [Hx|Hx]; [by left|right]. split.
  - f_equal. rewrite length_take. apply list_elem_of_lookup in Hx as [i Hi].
    apply lookup_lt_Some in Hi. rewrite length_drop in Hi. lia.
  - intros y Hy. eapply StronglySorted_app_1_elem_of; eauto.
Qed.

(** A profile in the range is returned unless five profiles with keys no
    greater fill the result. *)
Lemma search_in_range_found (d : db) (queryText : string) (id : string) (p : doc) :
  truthy queryText = true → trim queryText ≠ EmptyString →
  contents d userProfiles !! id = Some p →
  name_in_range (toLowerCase queryText)
    (toLowerCase queryText ++ high_sentinel) p = true →
  with_id id p ∈ searchUserProfiles d queryText
  ∨ (length (searchUserProfiles d queryText) = 5
     ∧ ∀ r, r ∈ searchUserProfiles d queryText → name_le r (with_id id p)).
Proof.
  intros Ht Hw Hin Hp.
  rewrite (searchUserProfiles_query d queryText Ht Hw).
  destruct (getDocs_cut d (search_query queryText) (id, p)) as [Hx|[Hl Hx]].
  - exact Hin.
  - by rewrite selected_search.
  - left. apply list_elem_of_fmap. by exists (id, p).
  - right. split.
    + rewrite length_fmap.
      change (limit_of (q_constraints (search_query queryText))) with (Some 5) in Hl.
      by simplify_eq.
    + intros r [y [-> Hy]]%list_elem_of_fmap. apply name_le_with_id.
      apply (search_order_name queryText y (id, p)); eauto using name_in_range_key.
      apply getDocs_elem in Hy as [_ Hy]. rewrite selected_search in Hy.
      eauto using name_in_range_key.
Qed.

(** X9: The search is a prefix match for the continuations the sentinel
    bounds: a profile whose search key is the lower-cased search text,
    alone or followed by bytes of which the first is below EF, is
    returned, unless five profiles with keys no greater fill the result. *)
Theorem search_finds_low_continuation (d : db) (queryText rest : string)
    (id : string) (p : doc) :
  truthy queryText = true → trim queryText ≠ EmptyString →
  contents d userProfiles !! id = Some p →
  name_key p = Some (toLowerCase queryText ++ rest) →
  low_continuation rest = true →
  let rs := searchUserProfiles d queryText in
  with_id id p ∈ rs
  ∨ (length rs = 5 ∧ ∀ r, r ∈ rs → name_le r (with_id id p)).
Proof.
  intros Ht Hw Hin Hk Hrest rs. subst rs.
  apply search_in_range_found; [done..|].
  unfold name_in_range. rewrite Hk. apply andb_true_iff. split.
  - apply leb_app_r.
  - by apply low_continuation_in.
Qed.

(** X10: Whatever the search text, at most five profiles are returned; a
    text that is empty or blank returns none, whatever the store holds. *)
Theorem searchUserProfiles_bounded (d : db) (queryText : string) :
  (length (searchUserProfiles d queryText) ≤ 5)%nat
  ∧ (queryText = EmptyString ∨ trim queryText = EmptyString →
     searchUserProfiles d queryText = []).
Proof.
  unfold searchUserProfiles. split.
  - destruct (negb (truthy queryText) || String.eqb (trim queryText) EmptyString);
      simpl; [lia|].
    rewrite length_fmap, getDocs_length. cbv zeta.
    change (limit_of (q_constraints (search_query queryText))) with (Some 5).
    cbv match. lia.
  - intros [->| ->]; [done|]. rewrite String.eqb_refl. by rewrite orb_true_r.
Qed.

End search_complete.

Section search_complete_examples.
Import Firestore FirebaseService ProfileStore Examples.

#[local] Existing Instance AsciiBuiltins.builtins.

Lemma search_finds_witness :
  truthy "FL" = true ∧ trim "FL" ≠ EmptyString
  ∧ contents six userProfiles !! "u3" = Some (named "flame")
  ∧ name_key (named "flame") = Some (toLowerCase "FL" ++ "ame")
  ∧ low_continuation "ame" = true
  ∧ (with_id "u3" (named "flame") ∈ searchUserProfiles six "FL"
     ∨ (length (searchUserProfiles six "FL") = 5
        ∧ ∀ r, r ∈ searchUserProfiles six "FL" →
               name_le r (with_id "u3" (named "flame")))).
Proof.
  split; [reflexivity|]. split; [vm_compute; discriminate|].
  split; [vm_compute; exact eq_refl|]. split; [vm_compute; exact eq_refl|].
  split; [reflexivity|].
  apply (search_finds_low_continuation six "FL" "ame" "u3" (named "flame")).
  - reflexivity.
  - vm_compute; discriminate.
  - vm_compute; exact eq_refl.
  - vm_compute; exact eq_refl.
  - reflexivity.
Defined.

End search_complete_examples.

(** ** src/api/firebaseService.js: writes and reads together *)
Section store_composition.
Import Firestore FirebaseService ProfileStore Examples.

Lemma setDoc_merge_merge d path id (f g : doc) :
  setDoc_merge (setDoc_merge d path id f) path id g
  = setDoc_merge d path id (g ∪ f).
Proof.
  unfold setDoc_merge at 1.
  change (contents (setDoc_merge d path id f) path !! id)
    with (getDoc (setDoc_merge d path id f) path id).
  rewrite getDoc_setDoc_merge. simpl. rewrite (assoc_L (∪)).
  unfold setDoc_merge, getDoc. rewrite contents_insert.
  by rewrite !insert_insert_eq.
Qed.

Lemma setDoc_merge_commute d path i j (f g : doc) :
  i ≠ j →
  setDoc_merge (setDoc_merge d path i f) path j g
  = setDoc_merge (setDoc_merge d path j g) path i f.
Proof.
  intros Hij. unfold setDoc_merge. rewrite !contents_insert.
  rewrite !insert_insert_eq.
  rewrite (lookup_insert_ne _ i j) by done.
  rewrite (lookup_insert_ne _ j i) by done.
  f_equal. by apply insert_insert_ne.
Qed.

(** X11: Two writes for one identity are one write of both field maps, the
    later fields winning: writing [f] and then [g] leaves the store that
    writing [g ∪ f] leaves. *)
Theorem setUserProfile_twice (d : db) (uid : string) (f g : doc) :
  uid ≠ EmptyString →
  ∃ d1, setUserProfile d uid (Some f) = Fulfilled d1
        ∧ setUserProfile d1 uid (Some g) = setUserProfile d uid (Some (g ∪ f)).
Proof.
  intros Hu%truthy_nonempty. exists (setDoc_merge d userProfiles uid f).
  unfold setUserProfile. rewrite Hu. split; [done|].
  by rewrite setDoc_merge_merge.
Qed.

Lemma setUserProfile_twice_witness :
  "id1" ≠ EmptyString
  ∧ ∃ d1, setUserProfile xe_store "id1" (Some {[ "displayName" := VStr "Y" ]})
          = Fulfilled d1
          ∧ setUserProfile d1 "id1" (Some {[ "email" := VStr "f" ]})
            = setUserProfile xe_store "id1"
                (Some ({[ "email" := VStr "f" ]} ∪ {[ "displayName" := VStr "Y" ]})).
Proof.
  split; [discriminate|].
  apply (setUserProfile_twice xe_store "id1"
           {[ "displayName" := VStr "Y" ]} {[ "email" := VStr "f" ]}).
  discriminate.
Defined.

(** X12: Writes for different identities do not interfere: in either order
    they leave the same store. *)
Theorem setUserProfile_commute (d : db) (uid1 uid2 : string) (f g : doc) :
  uid1 ≠ EmptyString → uid2 ≠ EmptyString → uid1 ≠ uid2 →
  ∃ d1 d2, setUserProfile d uid1 (Some f) = Fulfilled d1
           ∧ setUserProfile d uid2 (Some g) = Fulfilled d2
           ∧ setUserProfile d1 uid2 (Some g) = setUserProfile d2 uid1 (Some f).
Proof.
  intros H1%truthy_nonempty H2%truthy_nonempty Hne.
  exists (setDoc_merge d userProfiles uid1 f), (setDoc_merge d userProfiles uid2 g).
  unfold setUserProfile. rewrite H1, H2. split_and!; [done..|].
  by rewrite setDoc_merge_commute.
Qed.

Lemma setUserProfile_commute_witness :
  "A" ≠ EmptyString ∧ "B" ≠ EmptyString ∧ "A" ≠ "B"
  ∧ ∃ d1 d2,
      setUserProfile one_profile "A" (Some xe_profile) = Fulfilled d1
      ∧ setUserProfile one_profile "B" (Some (named "bobby")) = Fulfilled d2
      ∧ setUserProfile d1 "B" (Some (named "bobby"))
        = setUserProfile d2 "A" (Some xe_profile).
Proof.
  split; [discriminate|]. split; [discriminate|]. split; [discriminate|].
  apply (setUserProfile_commute one_profile "A" "B" xe_profile (named "bobby"));
    discriminate.
Defined.

(** X13: A profile that was written is there to be fetched: after a write
    with a non-empty identity, the read of that identity, answered from
    the store, yields a profile that has every written field with the
    written value, and an id. *)
Theorem set_then_fetch (d : db) (uid : string) (fields : doc) :
  uid ≠ EmptyString →
  ∃ d1 profile,
    setUserProfile d uid (Some fields) = Fulfilled d1
    ∧ fetchUserProfile uid (Fulfilled (getDoc d1 userProfiles uid))
      = Fulfilled (Some profile)
    ∧ (∀ k v, fields !! k = Some v → profile !! k = Some v)
    ∧ is_Some (profile !! "id").
Proof.
  intros Hu%truthy_nonempty.
  exists (setDoc_merge d userProfiles uid fields),
         (with_id uid (fields ∪ default ∅ (getDoc d userProfiles uid))).
  unfold setUserProfile, fetchUserProfile. rewrite Hu. simpl.
  rewrite getDoc_setDoc_merge. split_and!; [done..| |].
  - intros k v Hk. unfold with_id. by do 2 apply lookup_union_Some_l.
  - unfold with_id.
    destruct ((fields ∪ default ∅ (getDoc d userProfiles uid)) !! "id") as [v|] eqn:E.
    + exists v. by apply lookup_union_Some_l.
    + exists (VStr uid). rewrite lookup_union_r by done. apply lookup_singleton_eq.
Qed.

Lemma set_then_fetch_witness :
  "A" ≠ EmptyString
  ∧ ∃ d1 profile,
      setUserProfile one_profile "A" (Some xe_profile) = Fulfilled d1
      ∧ fetchUserProfile "A" (Fulfilled (getDoc d1 userProfiles "A"))
        = Fulfilled (Some profile)
      ∧ (∀ k v, xe_profile !! k = Some v → profile !! k = Some v)
      ∧ is_Some (profile !! "id").
Proof.
  split; [discriminate|].
  apply (set_then_fetch one_profile "A" xe_profile). discriminate.
Defined.

End store_composition.

(** ** src/api/firebaseService.js: unread counts *)
Section count_order.
Import Firestore FirebaseService ProfileStore Examples.

Lemma count_all d chatId :
  fetchChatMessagesCount d chatId None
  = size (contents d (collection ["chats"; chatId; "messages"])).
Proof.
  unfold fetchChatMessagesCount. rewrite getDocs_length. simpl.
  f_equal. apply map_filter_id. intros i x _. reflexivity.
Qed.

Lemma count_after d chatId t :
  fetchChatMessagesCount d chatId (Some t)
  = size (filter (λ x, created_after t x.2 = true)
            (contents d (collection ["chats"; chatId; "messages"]))).
Proof.
  unfold fetchChatMessagesCount. rewrite getDocs_length.
  cbn -[selected]. f_equal. apply map_filter_ext. intros i x _.
  by rewrite (selected_after t (i, x)).
Qed.

Lemma created_after_mono t1 t2 m :
  (t1 ≤ t2)%Z → created_after t2 m = true → created_after t1 m = true.
Proof.
  unfold created_after. intros Ht.
  destruct (m !! "createdAt") as [[| | |c|]|]; try done.
  rewrite !Z.ltb_lt. lia.
Qed.

(** X14: The unread count never exceeds the total, and reading further never
    raises it: for read marks [t1 ≤ t2] the count after [t2] is at most
    the count after [t1], which is at most the count of all messages. *)
Theorem unread_count_antitone (d : db) (chatId : string) (t1 t2 : Z) :
  (t1 ≤ t2)%Z →
  (fetchChatMessagesCount d chatId (Some t2)
   ≤ fetchChatMessagesCount d chatId (Some t1))%nat
  ∧ (fetchChatMessagesCount d chatId (Some t1)
     ≤ fetchChatMessagesCount d chatId None)%nat.
Proof.
  intros Ht. rewrite !count_after, count_all. split.
  - apply map_subseteq_size, map_filter_subseteq_ext.
    intros i m _. simpl. by apply created_after_mono.
  - apply map_subseteq_size, map_filter_subseteq.
Qed.

Lemma unread_count_witness :
  (10 ≤ 20)%Z
  ∧ (fetchChatMessagesCount three_messages "c1" (Some 20%Z)
     ≤ fetchChatMessagesCount three_messages "c1" (Some 10%Z))%nat.
Proof.
  split; [lia|].
  apply (unread_count_antitone three_messages "c1" 10 20). lia.
Defined.

End count_order.

(** ** src/components/profile/UserProfileSetup.js: what a submission does *)
Section setup_behaviour.
Import Firestore FirebaseService ProfileStore UserContext UserProfileSetup.
Context `{StringBuiltins}.

Lemma profile_fields_other u displayName now k :
  k ∉ ["displayName"; "lowercaseDisplayName"; "email"; "createdAt"] →
  profile_fields u displayName now !! k = None.
Proof.
  intros Hk. unfold profile_fields.
  assert (k ≠ "displayName" ∧ k ≠ "lowercaseDisplayName"
          ∧ k ≠ "email" ∧ k ≠ "createdAt") as (? & ? & ? & ?) by set_solver.
  by simplify_map_eq.
Qed.

(** The three ways a submission can end. *)
Lemma handleSubmit_cases d user displayName now :
  (∃ u, user = Some u ∧ truthy (trim displayName) = true
        ∧ truthy (uid (authUser u)) = true
        ∧ handleSubmit d user displayName now
          = {| store := setDoc_merge d userProfiles (uid (authUser u))
                          (profile_fields u displayName now);
               user_after := Some {| authUser := authUser u;
                                     UserContext.displayName :=
                                       Some (VStr (trim displayName));
                                     profileComplete := true |};
               error_shown := None;
               navigated := Some "/dashboard" |})
  ∨ ((user = None ∨ truthy (trim displayName) = false
      ∨ ∃ u, user = Some u ∧ truthy (uid (authUser u)) = false)
     ∧ ∃ message,
         handleSubmit d user displayName now
         = {| store := d; user_after := user;
              error_shown := Some message; navigated := None |}).
Proof.
  unfold handleSubmit, setUserProfile.
  destruct user as [u|]; [|right; eauto].
  destruct (truthy (trim displayName)) eqn:Hn; [|right; eauto].
  destruct (truthy (uid (authUser u))) eqn:Hu; [left|right]; eauto 10.
Qed.


(** X16: A submission touches the submitting user's profile only: the
    profiles of other identities and the other collections stay as they
    are, and so do the fields of the user's own profile that the form
    does not write. *)
Theorem handleSubmit_only_own_profile (d : db) (u : User)
    (displayName : string) (now : Z) :
  let r := handleSubmit d (Some u) displayName now in
  (∀ other, other ≠ uid (authUser u) →
     getDoc (store r) userProfiles other = getDoc d userProfiles other)
  ∧ (∀ path, path ≠ userProfiles → contents (store r) path = contents d path)
  ∧ (∀ k, k ∉ ["displayName"; "lowercaseDisplayName"; "email"; "createdAt"] →
     default ∅ (getDoc (store r) userProfiles (uid (authUser u))) !! k
     = default ∅ (getDoc d userProfiles (uid (authUser u))) !! k).
Proof.
  intros r. subst r.
  destruct (handleSubmit_cases d (Some u) displayName now)
    as [(u' & [= <-] & Hn & Hu & ->)|[_ [message ->]]]; simpl; [|done].
  split_and!.
  - intros other Hne. by apply getDoc_setDoc_merge_ne.
  - intros path Hne. unfold setDoc_merge, contents.
    by rewrite lookup_insert_ne.
  - intros k Hk. rewrite getDoc_setDoc_merge. simpl.
    apply lookup_union_r. by apply profile_fields_other.
Qed.

(** X17: The form and the provider agree: after a submission that went
    through, a sign-in of the same identity answered from the store
    publishes the very user the form has published. *)
Theorem handleSubmit_agrees_with_provider (d : db) (u : User)
    (displayName : string) (now : Z) (s : State) :
  let r := handleSubmit d (Some u) displayName now in
  navigated r = Some "/dashboard" →
  context (run s [ AuthStateChanged (Some (authUser u));
                   LookupSettled (issued s)
                     (Fulfilled (getDoc (store r) userProfiles
                                   (uid (authUser u)))) ])
  = {| user := user_after r; loadingUser := false |}.
Proof.
  intros r. subst r.
  destruct (handleSubmit_cases d (Some u) displayName now)
    as [(u' & [= <-] & Hn & Hu & ->)|[_ [message ->]]]; simpl; [|done].
  intros _.
  destruct (step_pair s (authUser u)
              (getDoc (setDoc_merge d userProfiles (uid (authUser u))
                         (profile_fields u displayName now))
                 userProfiles (uid (authUser u)))) as [Hctx _].
  simpl in Hctx. simpl. rewrite Hctx. do 2 f_equal.
  rewrite getDoc_setDoc_merge. unfold session_of, fetchUserProfile.
  rewrite Hu. simpl. f_equal.
  rewrite with_id_displayName.
  apply lookup_union_Some_l, profile_fields_displayName.
Qed.

(** X18: A saved profile can be searched for by its name: after a submission
    that went through, a search for a text with the same lower-cased
    form as the trimmed name returns the user's profile, unless the
    result is already filled by five profiles with exactly that key. *)
Theorem handleSubmit_then_search (d : db) (u : User) (displayName : string)
    (now : Z) (queryText : string) :
  let r := handleSubmit d (Some u) displayName now in
  navigated r = Some "/dashboard" →
  truthy queryText = true → trim queryText ≠ EmptyString →
  toLowerCase queryText = toLowerCase (trim displayName) →
  ∃ stored,
    getDoc (store r) userProfiles (uid (authUser u)) = Some stored
    ∧ (with_id (uid (authUser u)) stored ∈ searchUserProfiles (store r) queryText
       ∨ (length (searchUserProfiles (store r) queryText) = 5
          ∧ ∀ x, x ∈ searchUserProfiles (store r) queryText →
                 name_key x = Some (toLowerCase queryText))).
Proof.
  intros r. subst r.
  destruct (handleSubmit_cases d (Some u) displayName now)
    as [(u' & [= <-] & Hn & Hu & ->)|[_ [message ->]]]; simpl; [|done].
  intros _ Ht Hw Hq. eexists. split; [apply getDoc_setDoc_merge|].
  set (d1 := setDoc_merge d userProfiles (uid (authUser u))
               (profile_fields u displayName now)).
  set (stored := profile_fields u displayName now
                 ∪ default ∅ (getDoc d userProfiles (uid (authUser u)))).
  assert (name_key stored = Some (toLowerCase queryText)) as Hk.
  { unfold name_key, stored.
    rewrite (lookup_union_Some_l _ _ _ _
               (profile_fields_lowercase u displayName now)).
    by rewrite Hq. }
  destruct (search_in_range_found d1 queryText (uid (authUser u)) stored Ht Hw)
    as [Hin|[Hlen Hle]].
  - apply getDoc_setDoc_merge.
  - unfold name_in_range. rewrite Hk. apply andb_true_iff. split.
    + by destruct (String.leb_total (toLowerCase queryText)
                     (toLowerCase queryText)).
    + apply leb_app_r.
  - by left.
  - right. split; [done|]. intros x Hx.
    destruct (Hle x Hx) as (k1 & k2 & Hk1 & Hk2 & Hk12).
    rewrite name_key_with_id, Hk in Hk2. simplify_eq.
    apply searchUserProfiles_elem in Hx as (i & p & _ & -> & Hp).
    rewrite name_key_with_id in Hk1. unfold name_in_range in Hp.
    rewrite Hk1 in Hp. apply andb_true_iff in Hp as [Hlo _].
    rewrite name_key_with_id, Hk1. f_equal.
    apply String.leb_antisym; [|done]. by apply Is_true_true.
Qed.

End setup_behaviour.

Section setup_behaviour_examples.
Import Firestore FirebaseService ProfileStore UserContext UserProfileSetup Examples.

#[local] Existing Instance AsciiBuiltins.builtins.

Lemma handleSubmit_agrees_witness :
  let u := {| authUser := alice;
              displayName := Some (VStr "alice@example.com");
              profileComplete := false |} in
  let r := handleSubmit one_profile (Some u) "  Alice " 1700000001 in
  navigated r = Some "/dashboard"
  ∧ context (run (initial "/setup-profile")
               [ AuthStateChanged (Some alice);
                 LookupSettled 0 (Fulfilled (getDoc (store r) userProfiles "A")) ])
    = {| user := user_after r; loadingUser := false |}.
Proof.
  split; [reflexivity|].
  apply (handleSubmit_agrees_with_provider one_profile
           {| authUser := alice;
              displayName := Some (VStr "alice@example.com");
              profileComplete := false |}
           "  Alice " 1700000001 (initial "/setup-profile")).
  reflexivity.
Defined.

Lemma handleSubmit_search_witness :
  let u := {| authUser := alice;
              displayName := Some (VStr "alice@example.com");
              profileComplete := false |} in
  let r := handleSubmit one_profile (Some u) "  Alice " 1700000001 in
  navigated r = Some "/dashboard"
  ∧ truthy "ALICE" = true ∧ trim "ALICE" ≠ EmptyString
  ∧ toLowerCase "ALICE" = toLowerCase (trim "  Alice ")
  ∧ ∃ stored,
      getDoc (store r) userProfiles "A" = Some stored
      ∧ (with_id "A" stored ∈ searchUserProfiles (store r) "ALICE"
         ∨ (length (searchUserProfiles (store r) "ALICE") = 5
            ∧ ∀ x, x ∈ searchUserProfiles (store r) "ALICE" →
                   name_key x = Some (toLowerCase "ALICE"))).
Proof.
  split; [reflexivity|]. split; [reflexivity|].
  split; [vm_compute; discriminate|]. split; [vm_compute; exact eq_refl|].
  apply (handleSubmit_then_search one_profile
           {| authUser := alice;
              displayName := Some (VStr "alice@example.com");
              profileComplete := false |}
           "  Alice " 1700000001 "ALICE").
  - reflexivity.
  - reflexivity.
  - vm_compute; discriminate.
  - vm_compute; exact eq_refl.
Defined.

End setup_behaviour_examples.

(** ** The guard, the setup page and the sign-in forms together *)
Section routes.
Import Firestore FirebaseService UserContext PrivateRoute Examples.

(** X19: Protected content is rendered only for a signed-in user once the
    loading flag is off, and then only if the profile is complete or the
    location is the setup page; the guard navigates to the sign-in page
    only when nobody is signed in, and to the setup page only from
    another location. *)
Theorem PrivateRoute_renders_children_iff (c : Context) (path : string) :
  (returned (PrivateRoute c path) = children
   ↔ loadingUser c = false
     ∧ ∃ u, user c = Some u
            ∧ (profileComplete u = true ∨ path = "/setup-profile"))
  ∧ (∀ to, PrivateRoute.navigated (PrivateRoute c path) = Some to →
       loadingUser c = false
       ∧ (to = "/auth" ∧ user c = None
          ∨ to = "/setup-profile" ∧ path ≠ "/setup-profile"
            ∧ ∃ u, user c = Some u ∧ profileComplete u = false)).
Proof.
  unfold PrivateRoute.
  destruct (loadingUser c); simpl.
  { split; [split; [done|by intros [? _]]|done]. }
  destruct (user c) as [u|]; simpl.
  - destruct (profileComplete u) eqn:Hc; simpl.
    + split; [|done]. split; [|done]. intros _. split; [done|]. eauto.
    + destruct (String.eqb_spec path "/setup-profile") as [Hp|Hp]; simpl.
      * split; [|done]. split; [|done]. intros _. split; [done|]. eauto.
      * split.
        -- split; [done|]. intros [_ (u' & [= <-] & [?|?])]; congruence.
        -- intros to [= <-]. split; [done|]. right. eauto.
  - split.
    + split; [done|]. by intros [_ (u' & ? & _)].
    + intros to [= <-]. split; [done|]. by left.
Qed.

(** X20: The setup page behind the guard: its log-in hint is never reached,
    the form is shown exactly to a signed-in user with an incomplete
    profile, and a user with a complete profile is sent on to the
    dashboard. *)
Theorem setup_page_behind_guard (c : Context) :
  let guard := PrivateRoute c "/setup-profile" in
  let page := UserProfileSetup.render (user c) in
  (returned guard = children → UserProfileSetup.shown page ≠ UserProfileSetup.PleaseLogIn)
  ∧ (returned guard = children ∧ UserProfileSetup.shown page = UserProfileSetup.SetupForm
     ↔ loadingUser c = false
       ∧ ∃ u, user c = Some u ∧ profileComplete u = false)
  ∧ (returned guard = children
     ∧ UserProfileSetup.redirected page = Some "/dashboard"
     ↔ loadingUser c = false
       ∧ ∃ u, user c = Some u ∧ profileComplete u = true).
Proof.
  unfold PrivateRoute, UserProfileSetup.render.
  destruct (loadingUser c); simpl.
  { split_and!; [done|split; [by intros [? _]|by intros [? _]]..]. }
  destruct (user c) as [u|]; simpl.
  - destruct (profileComplete u) eqn:Hc; simpl.
    + split_and!; [done| |].
      * split; [by intros [_ ?]|]. intros [_ (u' & [= <-] & ?)]. congruence.
      * split; [|done]. intros _. split; [done|]. eauto.
    + split_and!; [done| |].
      * split; [|done]. intros _. split; [done|]. eauto.
      * split; [by intros [_ ?]|]. intros [_ (u' & [= <-] & ?)]. congruence.
  - split_and!; [done|split; [by intros [? _]|by intros [_ (? & ? & _)]]..].
Qed.

End routes.

(** ** src/components/auth/Auth.js: signing up and logging in *)
Section auth_flows.
Import Firestore FirebaseService UserContext PrivateRoute Examples.
Context `{StringBuiltins}.


(** X22: Logging in after a sign-out has been dealt with: the form sends the
    user to the dashboard and leaves the published user to the
    provider; while the provider's profile read is in flight there is no
    published user, so the guard sends the user back to the sign-in
    page. *)
Theorem login_bounces_while_pending (s : State) (a : AuthUser) :
  context s = {| user := None; loadingUser := false |} →
  let r := Auth.handleLogin (user (context s)) (Fulfilled a) in
  let s1 := step s (AuthStateChanged (Some a)) in
  Auth.navigated r = Some "/dashboard"
  ∧ Auth.user_after r = None
  ∧ suspended s1 !! issued s = Some a
  ∧ PrivateRoute (context s1) "/dashboard" = enact RedirectToAuth.
Proof.
  intros Hc. simpl. rewrite Hc. simpl. split_and!; try done.
  apply lookup_insert_eq.
Qed.

End auth_flows.

Section auth_flow_examples.
Import Firestore FirebaseService UserContext PrivateRoute Examples.

#[local] Existing Instance AsciiBuiltins.builtins.


Lemma login_bounces_witness :
  let s := step (initial "/auth") (AuthStateChanged None) in
  context s = {| user := None; loadingUser := false |}
  ∧ PrivateRoute (context (step s (AuthStateChanged (Some bob)))) "/dashboard"
    = enact RedirectToAuth.
Proof.
  split; [reflexivity|].
  apply (login_bounces_while_pending
           (step (initial "/auth") (AuthStateChanged None)) bob).
  reflexivity.
Defined.

End auth_flow_examples.

(** ** src/contexts/UserContext.js: where the provider navigates *)
Section provider_location.
Import Firestore FirebaseService UserContext Examples.

Lemma step_pathname s e :
  pathname (step s e) = pathname s ∨ pathname (step s e) = "/setup-profile".
Proof.
  destruct e as [[a|]|ticket r]; simpl; try by left.
  destruct (suspended s !! ticket) as [a|]; [|by left].
  destruct (fetchUserProfile (uid a) r) as [[p|]|e]; simpl; try by left.
  destruct (String.eqb (pathname s) "/setup-profile"); simpl;
    [by left|by right].
Qed.

(** X6: The provider navigates to the setup page and nowhere else: after any
    notifications and answers the location is the one it started at or
    the setup page. *)
Theorem provider_navigates_only_to_setup (s : State) (es : list event) :
  pathname (run s es) = pathname s ∨ pathname (run s es) = "/setup-profile".
Proof.
  revert s. induction es as [|e es IH]; intros s; [by left|].
  simpl. destruct (IH (step s e)) as [Hp|Hp]; [|by right].
  rewrite Hp. apply step_pathname.
Qed.

End provider_location.
